(** * lipidsaxs: the Bragg-peak finder of [finder.py]

    A shallow embedding of [finder.py] (functions [fitting] and [finder]) and
    the properties of its three stages: the candidate detector (lines 81-88),
    the per-candidate fitting loop (lines 91-102) and the removal of
    degenerate peaks (lines 104-118).

    Numbers.  The program computes on numpy float64 arrays.  Here a float is
    an exact rational in canonical form ([Qc]): subtraction, absolute value,
    comparison and mean are the exact ones, and equality of two numbers is
    Leibniz equality, which is what the exact-equality pass of [np.unique]
    needs.  Rounding, NaN and infinities are outside this model.  Where a
    property of lines 104-118 depends on rounding, the lines are taken
    once more over any arithmetic ([Numeric]) and run on binary64 floats
    ([Binary64]).

    Collaborators.  [scipy.signal.find_peaks_cwt] and the lmfit least-squares
    fit are black boxes: they are parameters of the development, and each
    may raise. *)

From Stdlib Require Import List ZArith QArith Qcanon Qcabs Lia Lqa.
From Stdlib Require Import Permutation Sorted Bool.
From Stdlib Require String PrimFloat Uint63.
Import ListNotations String.StringSyntax.

Delimit Scope string_scope with string.

Local Open Scope Qc_scope.
Local Open Scope list_scope.

(** ** The numpy operations the program uses *)

Module NumPy.

(** A float literal [p/q]. *)
Definition lit (p : Z) (q : positive) : Qc := Q2Qc (p # q).

Definition of_nat (n : nat) : Qc := Q2Qc (inject_Z (Z.of_nat n)).

Definition ltb (a b : Qc) : bool :=
  match a ?= b with Lt => true | _ => false end.

Definition gtb (a b : Qc) : bool := ltb b a.

Definition leb (a b : Qc) : bool :=
  match a ?= b with Gt => false | _ => true end.

Definition eqb (a b : Qc) : bool :=
  match a ?= b with Eq => true | _ => false end.

(** [np.zeros(0)]. *)
Definition zeros0 {A : Type} : list A := [].

(** [np.append(arr, values)]: both arguments flattened, then joined. *)
Definition append {A : Type} (arr values : list A) : list A := arr ++ values.

(** [np.abs(a - v)] with [v] broadcast over the array [a]. *)
Definition abs_diff (a : list Qc) (v : Qc) : list Qc :=
  map (fun u => Qcabs (u - v)) a.

(** [np.where(test < t)]: the positions, ascending, whose entry is below
    [t].  (numpy wraps the index array in a 1-tuple; [np.size] of that
    tuple is the number of positions.) *)
Fixpoint where_lt_from (i : nat) (test : list Qc) (t : Qc) : list nat :=
  match test with
  | [] => []
  | u :: rest =>
      if ltb u t then i :: where_lt_from (S i) rest t
      else where_lt_from (S i) rest t
  end.

Definition where_lt (test : list Qc) (t : Qc) : list nat :=
  where_lt_from 0 test t.

Definition size {A : Type} (a : list A) : nat := length a.

(** [a[idx]] for an index array [idx] whose entries are valid positions
    (the only use is on the result of [where_lt] over an array of the
    same length). *)
Definition take (a : list Qc) (idx : list nat) : list Qc :=
  map (fun i => nth i a (lit 0 1)) idx.

Definition sum (a : list Qc) : Qc := fold_right Qcplus (lit 0 1) a.

(** [np.mean(a)]: the sum divided by the number of entries. *)
Definition mean (a : list Qc) : Qc := sum a / of_nat (length a).

(** [np.trim_zeros(a, 'f')]: drop the leading run of zeros. *)
Fixpoint trim_zeros_f (a : list Z) : list Z :=
  match a with
  | [] => []
  | v :: rest => if (v =? 0)%Z then trim_zeros_f rest else a
  end.

(** [np.unique(a)]: sort ascending, then keep the first of every run of
    equal neighbours. *)
Fixpoint insert (v : Qc) (s : list Qc) : list Qc :=
  match s with
  | [] => [v]
  | u :: rest => if leb v u then v :: s else u :: insert v rest
  end.

Definition sort (a : list Qc) : list Qc := fold_right insert [] a.

Fixpoint squeeze (s : list Qc) : list Qc :=
  match s with
  | [] => []
  | u :: rest =>
      match rest with
      | [] => [u]
      | w :: _ => if eqb u w then squeeze rest else u :: squeeze rest
      end
  end.

Definition unique (a : list Qc) : list Qc := squeeze (sort a).

(** [range(lo, hi)] and [np.arange(lo, hi)] on integers. *)
Definition range (lo hi : Z) : list Z :=
  map (fun k => (lo + Z.of_nat k)%Z) (seq 0 (Z.to_nat (hi - lo))).

(** A Python slice bound: a negative bound counts from the end, and the
    result is clamped to [0, len]. *)
Definition bound (len i : Z) : Z :=
  if (i <? 0)%Z then Z.max 0 (i + len) else Z.min i len.

(** [a[start:stop]]. *)
Definition slice {A : Type} (a : list A) (start stop : Z) : list A :=
  let len := Z.of_nat (length a) in
  let s := bound len start in
  let e := bound len stop in
  firstn (Z.to_nat (e - s)) (skipn (Z.to_nat s) a).

(** [a[i]] for an integer [i]: a negative index counts from the end;
    [None] stands for numpy's IndexError. *)
Definition getitem {A : Type} (a : list A) (i : Z) : option A :=
  let len := Z.of_nat (length a) in
  let k := if (i <? 0)%Z then (i + len)%Z else i in
  if ((0 <=? k) && (k <? len))%bool%Z then nth_error a (Z.to_nat k)
  else None.

(** [np.maximum] and [np.minimum] of two numbers. *)
Definition maximum (a b : Qc) : Qc := if leb a b then b else a.
Definition minimum (a b : Qc) : Qc := if leb a b then a else b.

(** [np.max(a)] and [np.min(a)]; [None] stands for the ValueError that
    numpy raises on an empty array. *)
Definition amax (a : list Qc) : option Qc :=
  match a with
  | [] => None
  | v :: rest => Some (fold_left maximum rest v)
  end.

Definition amin (a : list Qc) : option Qc :=
  match a with
  | [] => None
  | v :: rest => Some (fold_left minimum rest v)
  end.

End NumPy.

(** ** Removal of degenerate peaks ([finder], lines 104-118) *)

(** The tolerance [0.01] of line 108. *)
Definition tol : Qc := NumPy.lit 1 100.

(** One turn of the loop of line 105, at index [i]. *)
Definition dedupe_step (fitted_centre : list Qc) (true_peaks : list Qc)
    (i : nat) : list Qc :=
  let test :=
    NumPy.abs_diff fitted_centre (nth i fitted_centre (NumPy.lit 0 1)) in
  let degen := NumPy.where_lt test tol in
  if Nat.eqb (NumPy.size degen) 1 then
    NumPy.append true_peaks (NumPy.take fitted_centre degen)
  else if Nat.ltb 1 (NumPy.size degen) then
    let average := NumPy.mean (NumPy.take fitted_centre degen) in
    NumPy.append true_peaks [average]
  else true_peaks.

(** [true_peaks] when the loop of line 105 ends. *)
Definition degenerate_pass (fitted_centre : list Qc) : list Qc :=
  fold_left (dedupe_step fitted_centre)
            (seq 0 (length fitted_centre)) NumPy.zeros0.

(** Lines 104-118: the Deduplicator. *)
Definition dedupe (fitted_centre : list Qc) : list Qc :=
  NumPy.unique (degenerate_pass fitted_centre).

(** ** Errors and effects *)

(** What a run can end with instead of a value.  [IndexError] is numpy's;
    [Raised who] is an exception raised inside a collaborator;
    [WINDOW_OUT_OF_BOUNDS] is the code that section 7 of the specification
    names for a fit window that leaves the curve. *)
Inductive error : Type :=
| IndexError
| Raised (who : String.string)
| WINDOW_OUT_OF_BOUNDS.

(** What a run does besides computing: every call of [fitting], with its
    arguments, and the figures shown. *)
Inductive event : Type :=
| Fit (x_range y_range : list Qc) (approx_centre : Qc) (plot : Z)
| FitReport (x_range y_range : list Qc) (approx_centre fitted_centre : Qc)
| Figure (x y : list Qc) (lo_lim hi_lim : Qc) (lines : list Qc).

(** A computation: its outcome and the events it produced, in order. *)
Definition M (A : Type) : Type := (error + A) * list event.

Definition ret {A : Type} (a : A) : M A := (inr a, []).

Definition raise {A : Type} (e : error) : M A := (inl e, []).

Definition tell (ev : event) : M unit := (inr tt, [ev]).

Definition bind {A B : Type} (m : M A) (k : A -> M B) : M B :=
  match m with
  | (inl e, t) => (inl e, t)
  | (inr a, t) => let (r, t') := k a in (r, t ++ t')
  end.

Notation "x <- c ;; k" := (bind c (fun x => k))
  (at level 61, c at next level, right associativity).
Notation "c ;;; k" := (bind c (fun _ => k))
  (at level 61, right associativity).

(** A [for] loop over [l] that threads the accumulator [s]. *)
Fixpoint for_each {A S : Type} (l : list A) (body : S -> A -> M S) (s : S)
    : M S :=
  match l with
  | [] => ret s
  | a :: rest => s' <- body s a ;; for_each rest body s'
  end.

(** The outcome of a collaborator, as a computation. *)
Definition call {A : Type} (r : String.string + A) : M A :=
  match r with
  | inl who => raise (Raised who)
  | inr a => ret a
  end.

(** [a[i]] as a computation. *)
Definition item {A : Type} (a : list A) (i : Z) : M A :=
  match NumPy.getitem a i with
  | Some v => ret v
  | None => raise IndexError
  end.

Definition outcome {A : Type} (m : M A) : error + A := fst m.
Definition trace {A : Type} (m : M A) : list event := snd m.

(** ** [fitting] and [finder] *)

Section Finder.

(** [scipy.signal.find_peaks_cwt(vector, widths)]: indices into [vector],
    or the exception it raises. *)
Variable find_peaks_cwt : list Qc -> list Z -> String.string + list Z.

(** The lmfit computation of [fitting] (lines 37-55 and 70-72): from the
    window and the initial centre to the fitted [V_center] and the reduced
    chi-square of the fit, or the exception raised on the way. *)
Variable voigt_fit : list Qc -> list Qc -> Qc -> String.string + (Qc * Qc).

(** [fitting(x, y, approx_centre, plot)], lines 35-72. *)
Definition fitting (x y : list Qc) (approx_centre : Qc) (plot : Z)
    : M (Qc * Qc) :=
  tell (Fit x y approx_centre plot) ;;;
  result <- call (voigt_fit x y approx_centre) ;;
  (if (plot =? 1)%Z
   then tell (FitReport x y approx_centre (fst result))
   else ret tt) ;;;
  let fitted_centre := fst result in
  ret (fitted_centre, snd result).

(** One turn of the loop of line 85. *)
Definition filter_step (x : list Qc) (first_pass_peaks : list Z)
    (lo_lim hi_lim : Qc) (second_pass_peaks : list Z) (i : nat)
    : M (list Z) :=
  let p := nth i first_pass_peaks 0%Z in
  q <- item x p ;;
  if (NumPy.gtb q lo_lim && NumPy.ltb q hi_lim)%bool
  then ret (NumPy.append second_pass_peaks [p])
  else ret second_pass_peaks.

(** Lines 84-87: [second_pass_peaks] before the trim. *)
Definition q_window (x : list Qc) (first_pass_peaks : list Z)
    (lo_lim hi_lim : Qc) : M (list Z) :=
  for_each (seq 0 (length first_pass_peaks))
           (filter_step x first_pass_peaks lo_lim hi_lim) NumPy.zeros0.

(** Lines 84-88: the filter and the trim of line 88. *)
Definition second_pass (x : list Qc) (first_pass_peaks : list Z)
    (lo_lim hi_lim : Qc) : M (list Z) :=
  kept <- q_window x first_pass_peaks lo_lim hi_lim ;;
  ret (NumPy.trim_zeros_f kept).

(** Lines 81-88: the Candidate Detector. *)
Definition detect (x y : list Qc) (finding_sensitivity : Z)
    (lo_lim hi_lim : Qc) : M (list Z) :=
  first_pass_peaks <-
    call (find_peaks_cwt y (NumPy.range 1 finding_sensitivity)) ;;
  second_pass x first_pass_peaks lo_lim hi_lim.

(** The body of the loop of line 95, for the candidate at index [c]. *)
Definition fit_step (x y : list Qc) (c : Z) (fitted_centre : list Qc)
    (j : Z) : M (list Qc) :=
  let fit_range := j in
  let x_range := NumPy.slice x (c - fit_range) (c + fit_range) in
  let y_range := NumPy.slice y (c - fit_range) (c + fit_range) in
  approx_centre <- item x c ;;
  fit <- fitting x_range y_range approx_centre 0 ;;
  ret (NumPy.append fitted_centre [fst fit; snd fit]).

(** The body of the loop of line 93. *)
Definition fit_candidate (x y : list Qc) (second_pass_peaks : list Z)
    (fitted_centre : list Qc) (i : nat) : M (list Qc) :=
  let c := nth i second_pass_peaks 0%Z in
  for_each (NumPy.range 3 10) (fit_step x y c) fitted_centre.

(** Lines 91-102. *)
Definition fit_all (x y : list Qc) (second_pass_peaks : list Z)
    : M (list Qc) :=
  for_each (seq 0 (length second_pass_peaks))
           (fit_candidate x y second_pass_peaks) NumPy.zeros0.

(** Lines 91-129: what [finder] does with the candidates. *)
Definition refine_peaks (x y : list Qc) (second_pass_peaks : list Z)
    (lo_lim hi_lim : Qc) (fig : Z) : M (list Qc) :=
  fitted_centre <- fit_all x y second_pass_peaks ;;
  let true_peaks := dedupe fitted_centre in
  (if (fig =? 1)%Z
   then tell (Figure x y lo_lim hi_lim true_peaks)
   else ret tt) ;;;
  ret true_peaks.

(** [finder], lines 75-129, from the table that [np.genfromtxt] read:
    one pair (q, I) per row (a file of one row, which numpy reads as a
    one-dimensional array, is not in this model). *)
Definition finder (table : list (Qc * Qc)) (finding_sensitivity : Z)
    (lo_lim hi_lim : Qc) (fig : Z) : M (list Qc) :=
  let x := map fst table in
  let y := map snd table in
  second_pass_peaks <- detect x y finding_sensitivity lo_lim hi_lim ;;
  refine_peaks x y second_pass_peaks lo_lim hi_lim fig.

End Finder.

(** ** The body of [fitting] (lines 37-55 and 70-72) *)

(** The parameters of the model [Voigt_model + lin_mod] that the program
    sets or reads: slope and intercept of the linear background, and the
    centre, width and amplitude of the Voigt peak. *)
Record parameters : Type := {
  lin_slope : Qc;
  lin_intercept : Qc;
  V_center : Qc;
  V_sigma : Qc;
  V_amplitude : Qc
}.

Section FittingBody.

(** [lin_mod.guess(y, x=x)] (line 38): slope and intercept, or the
    exception it raises. *)
Variable lin_guess : list Qc -> list Qc -> String.string + (Qc * Qc).

(** [mod.fit(y, pars, x=x)] (line 55): the fitted parameters and the
    reduced chi-square, or the exception it raises. *)
Variable least_squares :
  list Qc -> parameters -> list Qc -> String.string + (parameters * Qc).

(** [np.max(a) - np.min(a)]. *)
Definition spread (a : list Qc) : String.string + Qc :=
  match NumPy.amax a, NumPy.amin a with
  | Some hi, Some lo => inr (hi - lo)
  | _, _ => inl "ValueError"%string
  end.

(** Lines 37-51: the parameters handed to the fit. *)
Definition initial_parameters (x y : list Qc) (approx_centre : Qc)
    : String.string + parameters :=
  match lin_guess y x with
  | inl who => inl who
  | inr (slope, intercept) =>
      match spread x with
      | inl who => inl who
      | inr x_spread =>
          match spread y with
          | inl who => inl who
          | inr y_spread =>
              inr {| lin_slope := slope;
                     lin_intercept := intercept;
                     V_center := approx_centre;
                     V_sigma := x_spread / NumPy.lit 5 1;
                     V_amplitude := y_spread / NumPy.lit 50 1 |}
          end
      end
  end.

(** Lines 37-55 and 70-72: the computation of [fitting], which [fitting]
    takes as [voigt_fit]. *)
Definition lmfit_fit (x y : list Qc) (approx_centre : Qc)
    : String.string + (Qc * Qc) :=
  match initial_parameters x y approx_centre with
  | inl who => inl who
  | inr pars =>
      match least_squares y pars x with
      | inl who => inl who
      | inr (best, redchi) => inr (V_center best, redchi)
      end
  end.

End FittingBody.

(** [i] is an index that numpy accepts for an array of [len] entries. *)
Definition valid_index (len : nat) (i : Z) : Prop :=
  (- Z.of_nat len <= i < Z.of_nat len)%Z.

(** The event is a call of [fitting] with [plot = 0]. *)
Definition plain_fit (ev : event) : Prop :=
  exists x_range y_range approx_centre,
    ev = Fit x_range y_range approx_centre 0.

(** ** The Deduplicator in the words of the specification (section 4.3) *)

(** [v] lies within absolute distance 0.01 of [c]. *)
Definition close (c v : Qc) : bool := NumPy.ltb (Qcabs (v - c)) tol.

(** The centres of the input within 0.01 of [c], one per position. *)
Definition spec_cluster (centers : list Qc) (c : Qc) : list Qc :=
  filter (close c) centers.

(** What is emitted for [c]: [c] itself for a cluster of one member, the
    arithmetic mean of the cluster for more than one. *)
Definition spec_emit (centers : list Qc) (c : Qc) : Qc :=
  if Nat.eqb (length (spec_cluster centers c)) 1 then c
  else NumPy.mean (spec_cluster centers c).

Definition spec_dedupe (centers : list Qc) : list Qc :=
  NumPy.unique (map (spec_emit centers) centers).

(** No two different values of [l] lie within 0.01 of each other. *)
Definition separated (l : list Qc) : Prop :=
  forall u v, In u l -> In v l -> u <> v -> close u v = false.

(** Within-0.01 is transitive on the values of [l]: the clusters of [l]
    do not chain. *)
Definition unchained (l : list Qc) : Prop :=
  forall a b c, In a l -> In b l -> In c l ->
    close a b = true -> close b c = true -> close a c = true.

(** [unchained], as a test. *)
Definition unchainedb (l : list Qc) : bool :=
  forallb (fun a => forallb (fun b => forallb (fun c =>
    implb (close a b && close b c) (close a c)) l) l) l.

(** The window of candidate [c] and half-width [w] leaves a curve of
    [len] samples. *)
Definition window_leaves_curve (len c w : Z) : Prop :=
  (c - w < 0 \/ c + w > len)%Z.

(** The sample at index [p] exists and its q lies strictly inside
    [(lo_lim, hi_lim)]: the test of line 86. *)
Definition in_window (x : list Qc) (lo_lim hi_lim : Qc) (p : Z) : bool :=
  match NumPy.getitem x p with
  | Some q => NumPy.gtb q lo_lim && NumPy.ltb q hi_lim
  | None => false
  end.

(** The half-widths of line 95. *)
Definition widths : list Z := [3; 4; 5; 6; 7; 8; 9]%Z.

(** What [np.append] adds to [fitted_centre] for one fit (line 102). *)
Definition flat (fit : Qc * Qc) : list Qc := [fst fit; snd fit].

(** The pairs (candidate, half-width) in the order in which lines 93-95
    visit them. *)
Definition jobs (second_pass_peaks : list Z) : list (Z * Z) :=
  flat_map (fun c => map (pair c) widths) second_pass_peaks.

(** The fit recorded by the event [ev] returned the FitResult [r]. *)
Definition produces
    (voigt_fit : list Qc -> list Qc -> Qc -> String.string + (Qc * Qc))
    (ev : event) (r : Qc * Qc) : Prop :=
  match ev with
  | Fit x_range y_range approx_centre _ =>
      voigt_fit x_range y_range approx_centre = inr r
  | _ => False
  end.

(** The [Fit] events of a trace. *)
Definition is_fit (ev : event) : bool :=
  match ev with Fit _ _ _ _ => true | _ => false end.

(** The call of [fitting] that [finder] makes for candidate [c] and
    half-width [w] (lines 97-100). *)
Definition fit_call (x y : list Qc) (c w : Z) : option event :=
  match NumPy.getitem x c with
  | Some q => Some (Fit (NumPy.slice x (c - w) (c + w))
                        (NumPy.slice y (c - w) (c + w)) q 0)
  | None => None
  end.

(** The body of the loop of line 85, on the entry [p] of
    [first_pass_peaks] rather than on its index. *)
Definition keep (x : list Qc) (lo_lim hi_lim : Qc)
    (second_pass_peaks : list Z) (p : Z) : M (list Z) :=
  q <- item x p ;;
  if (NumPy.gtb q lo_lim && NumPy.ltb q hi_lim)%bool
  then ret (NumPy.append second_pass_peaks [p])
  else ret second_pass_peaks.

(** The body of the loop of line 95, on a pair (candidate, half-width). *)
Definition job_step
    (voigt_fit : list Qc -> list Qc -> Qc -> String.string + (Qc * Qc))
    (x y : list Qc) (acc : list Qc) (cj : Z * Z) : M (list Qc) :=
  fit_step voigt_fit x y (fst cj) acc (snd cj).

(** The three ways one turn of the loop of line 95 can go. *)
Inductive turn
    (voigt_fit : list Qc -> list Qc -> Qc -> String.string + (Qc * Qc))
    (x y : list Qc) (c j : Z) (acc : list Qc) : M (list Qc) -> Prop :=
| turn_index :
    fit_call x y c j = None ->
    turn voigt_fit x y c j acc (raise IndexError)
| turn_raised ev who :
    fit_call x y c j = Some ev ->
    turn voigt_fit x y c j acc (inl (Raised who), [ev])
| turn_fitted ev r :
    fit_call x y c j = Some ev ->
    produces voigt_fit ev r ->
    turn voigt_fit x y c j acc (inr (acc ++ flat r), [ev]).

(** ** The removal of degenerate peaks over any arithmetic

    Lines 104-118 once more, over a number type [F] whose operations are
    a parameter, so that the same program text can be run on exact
    rationals and on binary64 floats. *)

(** What lines 104-118 ask of the numbers: [np.abs(u - v)], the
    comparisons [<], [<=] and [==], [np.mean] and the constant 0.01. *)
Record arithmetic (F : Type) : Type := {
  n_zero : F;
  n_tol : F;
  n_abs_sub : F -> F -> F;
  n_lt : F -> F -> bool;
  n_le : F -> F -> bool;
  n_eq : F -> F -> bool;
  n_mean : list F -> F
}.

Arguments n_zero {F} _.
Arguments n_tol {F} _.
Arguments n_abs_sub {F} _ _ _.
Arguments n_lt {F} _ _ _.
Arguments n_le {F} _ _ _.
Arguments n_eq {F} _ _ _.
Arguments n_mean {F} _ _.

Module Numeric.

Section Program.

Context {F : Type} (A : arithmetic F).

(** [np.abs(a - v)]. *)
Definition abs_diff (a : list F) (v : F) : list F :=
  map (fun u => n_abs_sub A u v) a.

(** [np.where(test < t)]. *)
Fixpoint where_lt_from (i : nat) (test : list F) (t : F) : list nat :=
  match test with
  | [] => []
  | u :: rest =>
      if n_lt A u t then i :: where_lt_from (S i) rest t
      else where_lt_from (S i) rest t
  end.

Definition where_lt (test : list F) (t : F) : list nat :=
  where_lt_from 0 test t.

(** [a[idx]]. *)
Definition take (a : list F) (idx : list nat) : list F :=
  map (fun i => nth i a (n_zero A)) idx.

(** [np.unique(a)]: the array sorted, and of the sorted array every entry
    that differs from the one before it ([aux[1:] != aux[:-1]]). *)
Fixpoint insert (v : F) (s : list F) : list F :=
  match s with
  | [] => [v]
  | u :: rest => if n_le A v u then v :: s else u :: insert v rest
  end.

Definition sort (a : list F) : list F := fold_right insert [] a.

Fixpoint squeeze_from (prev : F) (s : list F) : list F :=
  match s with
  | [] => []
  | u :: rest =>
      if n_eq A u prev then squeeze_from u rest
      else u :: squeeze_from u rest
  end.

Definition squeeze (s : list F) : list F :=
  match s with
  | [] => []
  | u :: rest => u :: squeeze_from u rest
  end.

Definition unique (a : list F) : list F := squeeze (sort a).

(** One turn of the loop of line 105, at index [i]. *)
Definition dedupe_step (fitted_centre : list F) (true_peaks : list F)
    (i : nat) : list F :=
  let test := abs_diff fitted_centre (nth i fitted_centre (n_zero A)) in
  let degen := where_lt test (n_tol A) in
  if Nat.eqb (length degen) 1 then
    true_peaks ++ take fitted_centre degen
  else if Nat.ltb 1 (length degen) then
    let average := n_mean A (take fitted_centre degen) in
    true_peaks ++ [average]
  else true_peaks.

(** [true_peaks] when the loop of line 105 ends. *)
Definition degenerate_pass (fitted_centre : list F) : list F :=
  fold_left (dedupe_step fitted_centre)
            (seq 0 (length fitted_centre)) [].

(** Lines 104-118. *)
Definition dedupe (fitted_centre : list F) : list F :=
  unique (degenerate_pass fitted_centre).

(** [v] tests as within 0.01 of [c] (line 108). *)
Definition near (c v : F) : bool := n_lt A (n_abs_sub A v c) (n_tol A).

(** The centres that test as within 0.01 of [c], one per position. *)
Definition cluster (centers : list F) (c : F) : list F :=
  filter (near c) centers.

(** What one turn of the loop adds for the centre [c]. *)
Definition emit (centers : list F) (c : F) : list F :=
  let cl := cluster centers c in
  if Nat.eqb (length cl) 1 then cl
  else if Nat.ltb 1 (length cl) then [n_mean A cl]
  else [].

(** The comparisons [<=] and [==] order the values [vals] as numbers are
    ordered, and [==] holds of identical values only.  For floats this
    says that [vals] holds no NaN and not both zeros. *)
Record ordered_on (vals : list F) : Prop := {
  le_total : forall a b, In a vals -> In b vals ->
    n_le A a b = true \/ n_le A b a = true;
  le_antisym : forall a b, In a vals -> In b vals ->
    n_le A a b = true -> n_le A b a = true -> a = b;
  le_trans : forall a b c, In a vals -> In b vals -> In c vals ->
    n_le A a b = true -> n_le A b c = true -> n_le A a c = true;
  eq_same : forall a b, In a vals -> In b vals ->
    (n_eq A a b = true <-> a = b)
}.

(** [a] comes strictly before [b]. *)
Definition before (a b : F) : Prop := n_le A a b = true /\ a <> b.

End Program.

End Numeric.

(** The exact arithmetic of the model above. *)
Definition exact : arithmetic Qc := {|
  n_zero := NumPy.lit 0 1;
  n_tol := tol;
  n_abs_sub := fun u v => Qcabs (u - v);
  n_lt := NumPy.ltb;
  n_le := NumPy.leb;
  n_eq := NumPy.eqb;
  n_mean := NumPy.mean
|}.

(** The arithmetic of the program: IEEE 754 binary64. *)
Module Binary64.

Import PrimFloat.

Definition tol : float := 0x1.47ae147ae147bp-7%float.

(** The float of a count. *)
Definition of_nat (n : nat) : float :=
  of_uint63 (Uint63.of_Z (Z.of_nat n)).

(** The sum of a contiguous float64 array as numpy's [add.reduce]
    computes it in one call of its pairwise summation: fewer than 8
    entries are added from left to right; up to 128 entries are added in
    8 lanes, the lanes combined as a tree and the rest added one by one;
    a longer array is split in two. *)
Fixpoint add_lanes (r a : list float) : list float :=
  match r, a with
  | u :: r', v :: a' => add u v :: add_lanes r' a'
  | _, _ => r
  end.

Fixpoint lanes (fuel : nat) (r a : list float) : list float * list float :=
  match fuel with
  | O => (r, a)
  | S fuel' =>
      if Nat.leb 8 (length a)
      then lanes fuel' (add_lanes r (firstn 8 a)) (skipn 8 a)
      else (r, a)
  end.

Definition tree8 (r : list float) : float :=
  let e := fun i => nth i r 0%float in
  add (add (add (e 0%nat) (e 1%nat)) (add (e 2%nat) (e 3%nat)))
      (add (add (e 4%nat) (e 5%nat)) (add (e 6%nat) (e 7%nat))).

Fixpoint pairwise_sum (fuel : nat) (a : list float) : float :=
  let n := length a in
  if Nat.ltb n 8 then fold_left add a (-0)%float
  else if Nat.leb n 128 then
    let (r, rest) := lanes n (firstn 8 a) (skipn 8 a) in
    fold_left add rest (tree8 r)
  else
    match fuel with
    | O => 0%float
    | S fuel' =>
        let n2 := (n / 2 - (n / 2) mod 8)%nat in
        add (pairwise_sum fuel' (firstn n2 a))
            (pairwise_sum fuel' (skipn n2 a))
    end.

(** [np.sum(a)]: the identity 0 plus the pairwise sum. *)
Definition sum (a : list float) : float :=
  add 0%float (pairwise_sum (length a) a).

(** [np.mean(a)]: the sum divided by the count. *)
Definition mean (a : list float) : float := div (sum a) (of_nat (length a)).

Definition arith : arithmetic float := {|
  n_zero := 0%float;
  n_tol := tol;
  n_abs_sub := fun u v => abs (sub u v);
  n_lt := ltb;
  n_le := leb;
  n_eq := eqb;
  n_mean := mean
|}.

(** Lines 104-118 on binary64 floats. *)
Definition dedupe (fitted_centre : list float) : list float :=
  Numeric.dedupe arith fitted_centre.

(** Sample centres.  [next_one] is the float after 1.  [rounding] and
    [rounding'] hold the same three centres in two orders.  [eight] is
    seven times 1.8 and once 1.81.  [pairs] and [pairs'] hold two pairs
    of centres, each pair 1/256 apart, in two orders. *)
Definition one : float := 1%float.
Definition next_one : float := 0x1.0000000000001p+0%float.
Definition rounding : list float := [one; next_one; next_one].
Definition rounding' : list float := [next_one; next_one; one].

Definition f1_8 : float := 0x1.ccccccccccccdp+0%float.
Definition f1_81 : float := 0x1.cf5c28f5c28f6p+0%float.
Definition eight : list float :=
  [f1_8; f1_8; f1_8; f1_8; f1_8; f1_8; f1_8; f1_81].
Definition eight_once : list float :=
  [0x1.ccccccccccccep+0%float; f1_81].
Definition eight_twice : list float := [0x1.ce147ae147ae2p+0%float].

Definition pairs : list float :=
  [1%float; 0x1.01p+0%float; 2%float; 0x1.008p+1%float].
Definition pairs' : list float :=
  [0x1.008p+1%float; 2%float; 0x1.01p+0%float; 1%float].
Definition pairs_once : list float :=
  [0x1.008p+0%float; 0x1.004p+1%float].

Definition apart : list float := [3%float; 1%float; 2%float].

(** The chain 0, 1/128, 2/128 and its two passes. *)
Definition chain : list float := [0%float; 0x1p-7%float; 0x1p-6%float].
Definition chain_once : list float :=
  [0x1p-8%float; 0x1p-7%float; 0x1.8p-7%float].
Definition chain_twice : list float := [0x1p-7%float].

End Binary64.

(** ** Concrete collaborators and curves, for running the model *)

Module Sample.

(** A peak search that reports the indices [peaks]. *)
Definition cwt_const (peaks : list Z)
    : list Qc -> list Z -> String.string + list Z :=
  fun _ _ => inr peaks.

(** A fit that returns the initial centre and the reduced chi-square
    [redchi]. *)
Definition fit_echo (redchi : Qc)
    : list Qc -> list Qc -> Qc -> String.string + (Qc * Qc) :=
  fun _ _ approx_centre => inr (approx_centre, redchi).

(** [n] samples at [q = 0, 1/10, 2/10, ...], all of intensity 1. *)
Definition grid (n : nat) : list (Qc * Qc) :=
  map (fun k => (NumPy.lit (Z.of_nat k) 10, NumPy.lit 1 1)) (seq 0 n).

(** Three centres that chain: 0 and 1/64 are further apart than 0.01,
    and 1/128 is within 0.01 of both. *)
Definition chain : list Qc :=
  [NumPy.lit 0 1; NumPy.lit 1 128; NumPy.lit 2 128].

(** Two clusters, around 1 and around 2. *)
Definition two_clusters : list Qc :=
  [NumPy.lit 1 1; NumPy.lit 1001 1000; NumPy.lit 2 1; NumPy.lit 999 1000;
   NumPy.lit 2003 1000].

(** The view of a float list as plain fractions. *)
Definition fractions (l : list Qc) : list Q := map this l.

(** A fit that, like a least-squares fit, cannot work on an empty
    window. *)
Definition fit_strict (redchi : Qc)
    : list Qc -> list Qc -> Qc -> String.string + (Qc * Qc) :=
  fun x_range _ approx_centre =>
    match x_range with
    | [] => inl "ValueError"%string
    | _ => inr (approx_centre, redchi)
    end.

(** The curve, the q-window and the collaborators of the sample runs:
    20 samples, peaks sought in (0.05, 2.9), every fit returning its
    initial centre and a reduced chi-square of 7. *)
Definition table : list (Qc * Qc) := grid 20.
Definition x : list Qc := map fst table.
Definition y : list Qc := map snd table.
Definition lo_lim : Qc := NumPy.lit 5 100.
Definition hi_lim : Qc := NumPy.lit 29 10.
Definition redchi : Qc := NumPy.lit 7 1.

Definition run (first_pass_peaks : list Z) (fig : Z) : M (list Qc) :=
  finder (cwt_const first_pass_peaks) (fit_echo redchi)
         table 8 lo_lim hi_lim fig.

(** The numbers a run returned, and the q-windows it fitted. *)
Definition values_of (m : M (list Qc)) : option (list Q) :=
  match outcome m with
  | inr peaks => Some (fractions peaks)
  | inl _ => None
  end.

Definition windows_of {A : Type} (m : M A) : list (list Q) :=
  flat_map (fun ev => match ev with
                      | Fit x_range _ _ _ => [fractions x_range]
                      | _ => []
                      end) (trace m).

(** A background guess and a least-squares fit that never raise: the fit
    returns the parameters it was given and the reduced chi-square
    [redchi]. *)
Definition guess_flat : list Qc -> list Qc -> String.string + (Qc * Qc) :=
  fun _ _ => inr (NumPy.lit 0 1, NumPy.lit 1 1).

Definition solver_echo
    : list Qc -> parameters -> list Qc -> String.string + (parameters * Qc) :=
  fun _ pars _ => inr (pars, redchi).

(** A peak search that raises. *)
Definition cwt_fails : list Qc -> list Z -> String.string + list Z :=
  fun _ _ => inl "ValueError"%string.

(** Centres that are all within 0.01 of each other. *)
Definition tight : list Qc :=
  [NumPy.lit 1000 1000; NumPy.lit 1004 1000; NumPy.lit 1008 1000].

End Sample.

(** * Properties *)

(** ** Comparisons *)

Section Comparisons.

Lemma ltb_lt (a b : Qc) : NumPy.ltb a b = true <-> a < b.
Proof.
  unfold NumPy.ltb. rewrite Qclt_alt.
  destruct (a ?= b); split; congruence.
Qed.

Lemma ltb_ge (a b : Qc) : NumPy.ltb a b = false <-> b <= a.
Proof.
  split; intro H.
  - apply Qcnot_lt_le. intro L. apply ltb_lt in L. congruence.
  - destruct (NumPy.ltb a b) eqn:E; [|reflexivity].
    apply ltb_lt in E. exfalso. exact (Qcle_not_lt _ _ H E).
Qed.

Lemma leb_le (a b : Qc) : NumPy.leb a b = true <-> a <= b.
Proof.
  unfold NumPy.leb. rewrite Qcle_alt.
  destruct (a ?= b); split; congruence.
Qed.

Lemma leb_gt (a b : Qc) : NumPy.leb a b = false <-> b < a.
Proof.
  split; intro H.
  - apply Qcnot_le_lt. intro L. apply leb_le in L. congruence.
  - destruct (NumPy.leb a b) eqn:E; [|reflexivity].
    apply leb_le in E. exfalso. exact (Qcle_not_lt _ _ E H).
Qed.

Lemma eqb_eq (a b : Qc) : NumPy.eqb a b = true <-> a = b.
Proof.
  unfold NumPy.eqb. rewrite Qceq_alt.
  destruct (a ?= b); split; congruence.
Qed.

Lemma eqb_neq (a b : Qc) : NumPy.eqb a b = false <-> a <> b.
Proof.
  split; intro H.
  - intro E. apply eqb_eq in E. congruence.
  - destruct (NumPy.eqb a b) eqn:E; [|reflexivity].
    apply eqb_eq in E. contradiction.
Qed.

End Comparisons.

(** ** [np.unique] *)

Lemma Qc_apart (a b : Qc) : a <> b -> a < b \/ b < a.
Proof.
  intro N. destruct (Qclt_le_dec a b) as [L|L]; [now left|right].
  destruct (Qcle_lt_or_eq _ _ L) as [L'|E]; [assumption|].
  congruence.
Qed.

Ltac qc_order :=
  repeat match goal with
    | H : @eq Qc ?a ?b -> False |- _ => apply Qc_apart in H; destruct H
    | H : not (@eq Qc ?a ?b) |- _ => apply Qc_apart in H; destruct H
    | H : NumPy.leb _ _ = true |- _ => apply leb_le in H
    | H : NumPy.leb _ _ = false |- _ => apply leb_gt in H
    | H : NumPy.ltb _ _ = true |- _ => apply ltb_lt in H
    | H : NumPy.ltb _ _ = false |- _ => apply ltb_ge in H
    | H : NumPy.eqb _ _ = true |- _ => apply eqb_eq in H
    | H : NumPy.eqb _ _ = false |- _ => apply eqb_neq in H
    end;
  try subst;
  match goal with
  | |- @eq Qc _ _ => apply Qc_is_canon; unfold Qcle, Qclt in *; lra
  | |- _ <> _ => let E := fresh in intro E; subst; unfold Qcle, Qclt in *; lra
  | _ => unfold Qcle, Qclt in *; lra
  end.

Section Unique.

Lemma insert_perm (v : Qc) (s : list Qc) :
  Permutation (NumPy.insert v s) (v :: s).
Proof.
  induction s as [|u r IH]; simpl; [reflexivity|].
  destruct (NumPy.leb v u); [reflexivity|].
  rewrite IH. apply perm_swap.
Qed.

Lemma sort_perm (a : list Qc) : Permutation (NumPy.sort a) a.
Proof.
  induction a as [|v r IH]; simpl; [reflexivity|].
  rewrite insert_perm. now constructor.
Qed.

Lemma insert_sorted (v : Qc) (s : list Qc) :
  StronglySorted Qcle s -> StronglySorted Qcle (NumPy.insert v s).
Proof.
  induction s as [|u r IH]; simpl; intro S.
  - repeat constructor.
  - inversion S as [|? ? Sr Fr]; subst.
    destruct (NumPy.leb v u) eqn:E.
    + constructor; [assumption|].
      constructor; [qc_order|].
      eapply Forall_impl; [|exact Fr]. intros w Hw. simpl in Hw. qc_order.
    + constructor; [auto|].
      eapply Permutation_Forall; [symmetry; apply insert_perm|].
      constructor; [qc_order|assumption].
Qed.

Lemma sort_sorted (a : list Qc) : StronglySorted Qcle (NumPy.sort a).
Proof.
  induction a as [|v r IH]; simpl; [constructor|].
  now apply insert_sorted.
Qed.

Lemma insert_comm (a b : Qc) (s : list Qc) :
  NumPy.insert a (NumPy.insert b s) = NumPy.insert b (NumPy.insert a s).
Proof.
  induction s as [|u r IH]; simpl.
  - destruct (NumPy.leb a b) eqn:E1, (NumPy.leb b a) eqn:E2;
      try reflexivity; [f_equal; [|f_equal]|]; qc_order.
  - destruct (NumPy.leb b u) eqn:Eb, (NumPy.leb a u) eqn:Ea; simpl;
      rewrite ?Eb, ?Ea.
    + destruct (NumPy.leb a b) eqn:E1, (NumPy.leb b a) eqn:E2;
        rewrite ?Ea, ?Eb; try reflexivity.
      * f_equal; [|f_equal]; qc_order.
      * qc_order.
    + destruct (NumPy.leb a b) eqn:E1; [qc_order|reflexivity].
    + destruct (NumPy.leb b a) eqn:E1; [qc_order|reflexivity].
    + now rewrite IH.
Qed.

Lemma sort_permutation (a a' : list Qc) :
  Permutation a a' -> NumPy.sort a = NumPy.sort a'.
Proof.
  induction 1; simpl; try congruence.
  apply insert_comm.
Qed.

Lemma insert_below (v : Qc) (s : list Qc) :
  Forall (fun w => v <= w) s -> NumPy.insert v s = v :: s.
Proof.
  destruct s as [|u r]; simpl; [reflexivity|].
  intro F. inversion F; subst.
  destruct (NumPy.leb v u) eqn:E; [reflexivity|qc_order].
Qed.

Lemma sort_of_sorted (s : list Qc) :
  StronglySorted Qcle s -> NumPy.sort s = s.
Proof.
  induction 1 as [|u r S IH F]; simpl; [reflexivity|].
  rewrite IH. now apply insert_below.
Qed.

Lemma squeeze_cons (u w : Qc) (r : list Qc) :
  NumPy.squeeze (u :: w :: r) =
  if NumPy.eqb u w then NumPy.squeeze (w :: r)
  else u :: NumPy.squeeze (w :: r).
Proof. reflexivity. Qed.

Lemma squeeze_In (v : Qc) (s : list Qc) :
  In v (NumPy.squeeze s) <-> In v s.
Proof.
  induction s as [|u r IH]; [reflexivity|].
  destruct r as [|w r]; [reflexivity|].
  rewrite squeeze_cons.
  destruct (NumPy.eqb u w) eqn:E.
  - apply eqb_eq in E. subst. rewrite IH. simpl. tauto.
  - change (In v (u :: w :: r)) with (u = v \/ In v (w :: r)).
    rewrite <- IH. reflexivity.
Qed.

Lemma squeeze_length (s : list Qc) :
  (length (NumPy.squeeze s) <= length s)%nat.
Proof.
  induction s as [|u r IH]; [reflexivity|].
  destruct r as [|w r]; [reflexivity|].
  rewrite squeeze_cons.
  destruct (NumPy.eqb u w); simpl in *; lia.
Qed.

Lemma squeeze_sorted (s : list Qc) :
  StronglySorted Qcle s -> StronglySorted Qclt (NumPy.squeeze s).
Proof.
  induction 1 as [|u r S IH F]; [constructor|].
  destruct r as [|w r]; [repeat constructor|].
  rewrite squeeze_cons.
  destruct (NumPy.eqb u w) eqn:E; [assumption|].
  constructor; [assumption|].
  apply Forall_forall. intros z Hz. rewrite squeeze_In in Hz.
  inversion F as [|? ? Huw Fr]; subst.
  inversion S as [|? ? _ Fw]; subst.
  assert (w <= z).
  { simpl in Hz. destruct Hz as [->|Hz]; [qc_order|].
    rewrite Forall_forall in Fw. auto. }
  qc_order.
Qed.

Lemma squeeze_of_strict (s : list Qc) :
  StronglySorted Qclt s -> NumPy.squeeze s = s.
Proof.
  induction 1 as [|u r S IH F]; [reflexivity|].
  destruct r as [|w r]; [reflexivity|].
  rewrite squeeze_cons, IH.
  inversion F; subst.
  destruct (NumPy.eqb u w) eqn:E; [qc_order|reflexivity].
Qed.

Lemma strict_weaken (s : list Qc) :
  StronglySorted Qclt s -> StronglySorted Qcle s.
Proof.
  induction 1 as [|u r S IH F]; constructor; [assumption|].
  eapply Forall_impl; [|exact F]. intros w Hw. simpl in Hw. qc_order.
Qed.

Lemma unique_In (v : Qc) (a : list Qc) : In v (NumPy.unique a) <-> In v a.
Proof.
  unfold NumPy.unique. rewrite squeeze_In.
  split; apply Permutation_in;
    [apply sort_perm|symmetry; apply sort_perm].
Qed.

Lemma unique_length (a : list Qc) :
  (length (NumPy.unique a) <= length a)%nat.
Proof.
  unfold NumPy.unique.
  rewrite <- (Permutation_length (sort_perm a)). apply squeeze_length.
Qed.

Lemma unique_ascending (a : list Qc) : StronglySorted Qclt (NumPy.unique a).
Proof. apply squeeze_sorted, sort_sorted. Qed.

Lemma unique_permutation (a a' : list Qc) :
  Permutation a a' -> NumPy.unique a = NumPy.unique a'.
Proof.
  intro P. unfold NumPy.unique. now rewrite (sort_permutation a a' P).
Qed.

Lemma unique_of_strict (s : list Qc) :
  StronglySorted Qclt s -> NumPy.unique s = s.
Proof.
  intro S. unfold NumPy.unique.
  rewrite sort_of_sorted by now apply strict_weaken.
  now apply squeeze_of_strict.
Qed.

End Unique.

(** ** The loop of lines 105-115 *)

Section DegeneratePass.

Lemma close_refl (c : Qc) : close c c = true.
Proof.
  unfold close. apply ltb_lt.
  replace (c - c) with (NumPy.lit 0 1) by (unfold NumPy.lit; ring).
  reflexivity.
Qed.

Lemma close_sym (a b : Qc) : close a b = close b a.
Proof. unfold close. now rewrite Qcabs_Qcminus. Qed.

Lemma where_take_from (pre l : list Qc) (v : Qc) :
  NumPy.take (pre ++ l)
    (NumPy.where_lt_from (length pre) (NumPy.abs_diff l v) tol)
  = filter (close v) l.
Proof.
  revert pre. induction l as [|u r IH]; intro pre; [reflexivity|].
  simpl. fold (close v u).
  specialize (IH (pre ++ [u])).
  rewrite <- app_assoc, length_app, Nat.add_1_r in IH. simpl in IH.
  destruct (close v u); [|exact IH].
  simpl. rewrite nth_middle. f_equal. exact IH.
Qed.

Lemma where_take (l : list Qc) (v : Qc) :
  NumPy.take l (NumPy.where_lt (NumPy.abs_diff l v) tol)
  = spec_cluster l v.
Proof. exact (where_take_from [] l v). Qed.

Lemma where_size (l : list Qc) (v : Qc) :
  NumPy.size (NumPy.where_lt (NumPy.abs_diff l v) tol)
  = length (spec_cluster l v).
Proof.
  rewrite <- where_take. unfold NumPy.take, NumPy.size.
  now rewrite length_map.
Qed.

Lemma cluster_self (l : list Qc) (c : Qc) :
  In c l -> In c (spec_cluster l c).
Proof.
  intro H. apply filter_In. split; [assumption|apply close_refl].
Qed.

Lemma cluster_single (l : list Qc) (c : Qc) :
  In c l -> length (spec_cluster l c) = 1%nat -> spec_cluster l c = [c].
Proof.
  intros H L. apply cluster_self in H.
  destruct (spec_cluster l c) as [|u [|w r]]; simpl in *; try discriminate.
  destruct H as [->|[]]. reflexivity.
Qed.

Lemma dedupe_step_emit (fc tp : list Qc) (i : nat) :
  (i < length fc)%nat ->
  dedupe_step fc tp i = tp ++ [spec_emit fc (nth i fc (NumPy.lit 0 1))].
Proof.
  intro Hi. unfold dedupe_step, spec_emit, NumPy.append.
  set (c := nth i fc (NumPy.lit 0 1)).
  assert (Hc : In c fc) by now apply nth_In.
  rewrite where_size, where_take.
  destruct (Nat.eqb (length (spec_cluster fc c)) 1) eqn:E1.
  - apply Nat.eqb_eq in E1.
    now rewrite (cluster_single fc c Hc E1).
  - destruct (Nat.ltb 1 (length (spec_cluster fc c))) eqn:E2;
      [reflexivity|].
    apply Nat.eqb_neq in E1. apply Nat.ltb_ge in E2.
    apply cluster_self in Hc.
    destruct (spec_cluster fc c); [contradiction|simpl in *; lia].
Qed.

Lemma collect_loop {A : Type} (step : list A -> nat -> list A)
    (g : nat -> A) (idx : list nat) (acc : list A) :
  (forall tp i, In i idx -> step tp i = tp ++ [g i]) ->
  fold_left step idx acc = acc ++ map g idx.
Proof.
  revert acc. induction idx as [|i r IH]; intros acc H; simpl.
  - now rewrite app_nil_r.
  - rewrite (H acc i) by now left.
    rewrite IH by (intros; apply H; now right).
    now rewrite <- app_assoc.
Qed.

Lemma map_nth_seq {A B : Type} (g : A -> B) (l : list A) (d : A) :
  map (fun i => g (nth i l d)) (seq 0 (length l)) = map g l.
Proof.
  apply nth_error_ext. intro n.
  rewrite !nth_error_map.
  destruct (Nat.lt_ge_cases n (length l)) as [H|H].
  - rewrite nth_error_seq. 
    destruct (Nat.ltb_spec n (length l)); [|lia]. simpl.
    now rewrite (nth_error_nth' l d H).
  - rewrite (proj2 (nth_error_None _ _)) by (now rewrite length_seq).
    now rewrite (proj2 (nth_error_None l n)).
Qed.

Lemma degenerate_pass_map (fc : list Qc) :
  degenerate_pass fc = map (spec_emit fc) fc.
Proof.
  unfold degenerate_pass, NumPy.zeros0.
  rewrite (collect_loop _
             (fun i => spec_emit fc (nth i fc (NumPy.lit 0 1)))).
  - apply map_nth_seq.
  - intros tp i Hi. apply in_seq in Hi. apply dedupe_step_emit. lia.
Qed.

Lemma dedupe_spec (fc : list Qc) : dedupe fc = spec_dedupe fc.
Proof. unfold dedupe, spec_dedupe. now rewrite degenerate_pass_map. Qed.

End DegeneratePass.

(** ** Means and clusters *)

Ltac qc_lra :=
  unfold Qcle, Qclt, tol, NumPy.lit, Qcminus, Qcplus, Qcopp, Qcmult, Q2Qc in *;
  cbn [this] in *;
  repeat match goal with
    | H : context [Qred _] |- _ => rewrite !Qred_correct in H
    end;
  rewrite ?Qred_correct;
  lra.

Section Clusters.

Lemma close_iff (c v : Qc) :
  close c v = true <-> c - tol < v /\ v < c + tol.
Proof.
  unfold close. rewrite ltb_lt.
  apply Qcabs_case; intros H;
    (split; [intros K; split|intros [K1 K2]]); qc_lra.
Qed.

Lemma far_iff (c v : Qc) :
  close c v = false <-> v <= c - tol \/ c + tol <= v.
Proof.
  split.
  - intro F.
    destruct (Qclt_le_dec (c - tol) v) as [L|L]; [|now left].
    destruct (Qclt_le_dec v (c + tol)) as [U|U]; [|now right].
    rewrite (proj2 (close_iff c v)) in F by now split. discriminate.
  - intro H. destruct (close c v) eqn:E; [|reflexivity].
    apply close_iff in E. destruct E, H; qc_lra.
Qed.

Lemma of_nat_S (n : nat) :
  NumPy.of_nat (S n) = NumPy.of_nat n + NumPy.lit 1 1.
Proof.
  apply Qc_is_canon. unfold NumPy.of_nat, NumPy.lit, Qcplus, Q2Qc.
  cbn [this]. rewrite !Qred_correct, Nat2Z.inj_succ.
  unfold Z.succ. now rewrite inject_Z_plus.
Qed.

Lemma of_nat_pos (n : nat) : NumPy.lit 0 1 < NumPy.of_nat (S n).
Proof.
  induction n as [|n IH].
  - reflexivity.
  - rewrite of_nat_S. qc_lra.
Qed.

Lemma sum_le (l : list Qc) (m : Qc) :
  Forall (fun a => a <= m) l ->
  NumPy.sum l <= m * NumPy.of_nat (length l).
Proof.
  induction 1 as [|a r Ha F IH]; simpl.
  - change (NumPy.of_nat 0) with 0. change (NumPy.lit 0 1) with 0.
    rewrite Qcmult_0_r. apply Qcle_refl.
  - rewrite of_nat_S.
    replace (m * (NumPy.of_nat (length r) + NumPy.lit 1 1))
      with (m + m * NumPy.of_nat (length r))
      by (change (NumPy.lit 1 1) with 1; ring).
    now apply Qcplus_le_compat.
Qed.

Lemma sum_ge (l : list Qc) (m : Qc) :
  Forall (fun a => m <= a) l ->
  m * NumPy.of_nat (length l) <= NumPy.sum l.
Proof.
  induction 1 as [|a r Ha F IH]; simpl.
  - change (NumPy.of_nat 0) with 0. change (NumPy.lit 0 1) with 0.
    rewrite Qcmult_0_r. apply Qcle_refl.
  - rewrite of_nat_S.
    replace (m * (NumPy.of_nat (length r) + NumPy.lit 1 1))
      with (m + m * NumPy.of_nat (length r))
      by (change (NumPy.lit 1 1) with 1; ring).
    now apply Qcplus_le_compat.
Qed.

Lemma mean_times (l : list Qc) :
  l <> [] -> NumPy.mean l * NumPy.of_nat (length l) = NumPy.sum l.
Proof.
  intro N. destruct l as [|a r]; [contradiction|].
  unfold NumPy.mean. rewrite Qcmult_comm. apply Qcmult_div_r.
  intro E. pose proof (of_nat_pos (length r)) as P.
  simpl length in E. rewrite E in P. discriminate.
Qed.

Lemma mean_le (l : list Qc) (m : Qc) :
  l <> [] -> Forall (fun a => a <= m) l -> NumPy.mean l <= m.
Proof.
  intros N F. destruct l as [|a r] eqn:El; [contradiction|].
  apply (Qcmult_lt_0_le_reg_r _ _ (NumPy.of_nat (length (a :: r)))).
  - apply of_nat_pos.
  - rewrite mean_times by discriminate. now apply sum_le.
Qed.

Lemma mean_ge (l : list Qc) (m : Qc) :
  l <> [] -> Forall (fun a => m <= a) l -> m <= NumPy.mean l.
Proof.
  intros N F. destruct l as [|a r] eqn:El; [contradiction|].
  apply (Qcmult_lt_0_le_reg_r _ _ (NumPy.of_nat (length (a :: r)))).
  - apply of_nat_pos.
  - rewrite mean_times by discriminate. now apply sum_ge.
Qed.

Lemma mean_single (c : Qc) : NumPy.mean [c] = c.
Proof.
  unfold NumPy.mean, NumPy.sum. cbn [fold_right length].
  change (NumPy.of_nat 1) with 1. change (NumPy.lit 0 1) with 0.
  field. discriminate.
Qed.

Lemma sum_permutation (l l' : list Qc) :
  Permutation l l' -> NumPy.sum l = NumPy.sum l'.
Proof.
  unfold NumPy.sum.
  induction 1; cbn [fold_right]; try congruence.
  ring.
Qed.

Lemma mean_permutation (l l' : list Qc) :
  Permutation l l' -> NumPy.mean l = NumPy.mean l'.
Proof.
  intro P. unfold NumPy.mean.
  now rewrite (sum_permutation l l' P), (Permutation_length P).
Qed.

Lemma filter_permutation {A : Type} (p : A -> bool) (l l' : list A) :
  Permutation l l' -> Permutation (filter p l) (filter p l').
Proof.
  induction 1; simpl.
  - constructor.
  - destruct (p x); [now constructor|assumption].
  - destruct (p x), (p y); try reflexivity. apply perm_swap.
  - etransitivity; eassumption.
Qed.

(** What is emitted for a centre of the input is in every case the mean
    of its cluster. *)
Lemma emit_mean (l : list Qc) (c : Qc) :
  In c l -> spec_emit l c = NumPy.mean (spec_cluster l c).
Proof.
  intro H. unfold spec_emit.
  destruct (Nat.eqb (length (spec_cluster l c)) 1) eqn:E; [|reflexivity].
  apply Nat.eqb_eq in E.
  now rewrite (cluster_single l c H E), mean_single.
Qed.

Lemma cluster_nonempty (l : list Qc) (c : Qc) :
  In c l -> spec_cluster l c <> [].
Proof.
  intros H E. apply cluster_self in H. rewrite E in H. contradiction.
Qed.

Lemma emit_permutation (l l' : list Qc) (c : Qc) :
  Permutation l l' -> spec_emit l c = spec_emit l' c.
Proof.
  intro P. unfold spec_emit.
  pose proof (filter_permutation (close c) l l' P) as Pc.
  fold (spec_cluster l c) in Pc. fold (spec_cluster l' c) in Pc.
  now rewrite (Permutation_length Pc), (mean_permutation _ _ Pc).
Qed.

End Clusters.

(** ** Inputs whose clusters do not chain *)

Section Separation.

Variable l : list Qc.
Hypothesis Hl : unchained l.

Lemma cluster_eq (c d : Qc) :
  In c l -> In d l -> close c d = true ->
  spec_cluster l c = spec_cluster l d.
Proof.
  intros Hc Hd Hcd. apply filter_ext_in. intros v Hv.
  destruct (close c v) eqn:Ec, (close d v) eqn:Ed; try reflexivity.
  - rewrite close_sym in Hcd.
    rewrite (Hl d c v Hd Hc Hv Hcd Ec) in Ed. discriminate.
  - rewrite (Hl c d v Hc Hd Hv Hcd Ed) in Ec. discriminate.
Qed.

Lemma cluster_gap (c d a b : Qc) :
  In c l -> In d l -> c + tol <= d ->
  In a (spec_cluster l c) -> In b (spec_cluster l d) -> a + tol <= b.
Proof.
  intros Hc Hd G Ha Hb.
  apply filter_In in Ha. destruct Ha as [Ha Ca].
  apply filter_In in Hb. destruct Hb as [Hb Cb].
  assert (Fab : close a b = false).
  { destruct (close a b) eqn:E; [|reflexivity].
    pose proof (Hl c a b Hc Ha Hb Ca E) as Ccb.
    rewrite close_sym in Cb.
    pose proof (Hl c b d Hc Hb Hd Ccb Cb) as Ccd.
    apply close_iff in Ccd. destruct Ccd. qc_lra. }
  apply far_iff in Fab. apply close_iff in Ca. apply close_iff in Cb.
  destruct Ca, Cb, Fab; qc_lra.
Qed.

Lemma emit_gap (c d : Qc) :
  In c l -> In d l -> c + tol <= d ->
  spec_emit l c + tol <= spec_emit l d.
Proof.
  intros Hc Hd G. rewrite !emit_mean by assumption.
  apply mean_ge; [now apply cluster_nonempty|].
  apply Forall_forall. intros b Hb.
  assert (NumPy.mean (spec_cluster l c) <= b - tol); [|qc_lra].
  apply mean_le; [now apply cluster_nonempty|].
  apply Forall_forall. intros a Ha.
  pose proof (cluster_gap c d a b Hc Hd G Ha Hb). qc_lra.
Qed.

Lemma emit_apart (c d : Qc) :
  In c l -> In d l ->
  spec_emit l c = spec_emit l d
  \/ close (spec_emit l c) (spec_emit l d) = false.
Proof.
  intros Hc Hd. destruct (close c d) eqn:E.
  - left. rewrite !emit_mean by assumption.
    now rewrite (cluster_eq c d Hc Hd E).
  - right. apply far_iff. apply far_iff in E. destruct E as [E|E].
    + left. assert (G : d + tol <= c) by qc_lra.
      pose proof (emit_gap d c Hd Hc G). qc_lra.
    + right. exact (emit_gap c d Hc Hd E).
Qed.

Lemma dedupe_separated : separated (dedupe l).
Proof.
  intros u v Hu Hv N. rewrite dedupe_spec in Hu, Hv.
  unfold spec_dedupe in Hu, Hv. rewrite unique_In in Hu, Hv.
  apply in_map_iff in Hu. destruct Hu as (c & <- & Hc).
  apply in_map_iff in Hv. destruct Hv as (d & <- & Hd).
  destruct (emit_apart c d Hc Hd); [contradiction|assumption].
Qed.

End Separation.

Section FixedPoints.

Lemma strict_NoDup (s : list Qc) : StronglySorted Qclt s -> NoDup s.
Proof.
  induction 1 as [|u r S IH F]; constructor; [|assumption].
  intro H. rewrite Forall_forall in F. specialize (F u H). qc_order.
Qed.

Lemma filter_none {A : Type} (p : A -> bool) (s : list A) :
  (forall v, In v s -> p v = false) -> filter p s = [].
Proof.
  induction s as [|u r IH]; intro F; [reflexivity|].
  simpl. rewrite (F u) by now left.
  apply IH. intros v Hv. apply F. now right.
Qed.

Lemma filter_only {A : Type} (p : A -> bool) (s : list A) (c : A) :
  NoDup s -> In c s -> p c = true ->
  (forall v, In v s -> v <> c -> p v = false) ->
  filter p s = [c].
Proof.
  induction 1 as [|u r Nu Nr IH]; intros Hc Pc Far; [contradiction|].
  simpl. destruct Hc as [->|Hc].
  - rewrite Pc. f_equal. apply filter_none.
    intros v Hv. apply Far; [now right|].
    intros ->. contradiction.
  - rewrite (Far u); [|now left|intros ->; contradiction].
    apply IH; [assumption|assumption|].
    intros v Hv. apply Far. now right.
Qed.

Lemma pass_fixed (s : list Qc) :
  StronglySorted Qclt s -> separated s -> dedupe s = s.
Proof.
  intros S Sep. rewrite dedupe_spec. unfold spec_dedupe.
  replace (map (spec_emit s) s) with s; [now apply unique_of_strict|].
  rewrite <- (map_id s) at 1. apply map_ext_in. intros c Hc.
  unfold spec_emit, spec_cluster.
  rewrite (filter_only (close c) s c); [reflexivity| | | |].
  - now apply strict_NoDup.
  - assumption.
  - apply close_refl.
  - intros v Hv N. apply Sep; auto.
Qed.

End FixedPoints.

(** ** The Deduplicator: the properties of section 4.3 and section 8 *)

Section DedupeClaims.

Lemma fractions_inj (l l' : list Qc) :
  Sample.fractions l = Sample.fractions l' -> l = l'.
Proof.
  revert l'. induction l as [|a r IH]; intros [|a' r'] H;
    try discriminate; [reflexivity|].
  simpl in H. injection H as Ha Hr.
  f_equal; [|now apply IH].
  apply Qc_is_canon. now rewrite Ha.
Qed.

Lemma unchainedb_spec (l : list Qc) : unchainedb l = true -> unchained l.
Proof.
  unfold unchainedb. rewrite forallb_forall. intros H a b c Ha Hb Hc Cab Cbc.
  specialize (H a Ha). rewrite forallb_forall in H.
  specialize (H b Hb). rewrite forallb_forall in H.
  specialize (H c Hc). rewrite Cab, Cbc in H.
  destruct (close a c); [reflexivity|discriminate].
Qed.


(** C6. For every input, the output of [dedupe] is no longer than the
    input, is strictly ascending, and each of its values comes from an
    input centre [c]: it is [c] itself, the only centre within 0.01 of
    [c], or the arithmetic mean of the several input centres within 0.01
    of [c]. *)
Theorem dedupe_output_bound (centers : list Qc) :
  (length (dedupe centers) <= length centers)%nat
  /\ StronglySorted Qclt (dedupe centers)
  /\ forall v, In v (dedupe centers) ->
       exists c, In c centers
         /\ Forall (fun u => In u centers /\ Qcabs (u - c) < tol)
                   (spec_cluster centers c)
         /\ ((spec_cluster centers c = [c] /\ v = c)
             \/ ((1 < length (spec_cluster centers c))%nat
                 /\ v = NumPy.mean (spec_cluster centers c))).
Proof.
  rewrite dedupe_spec. unfold spec_dedupe. split; [|split].
  - rewrite <- (length_map (spec_emit centers) centers).
    apply unique_length.
  - apply unique_ascending.
  - intros v Hv. rewrite unique_In in Hv.
    apply in_map_iff in Hv. destruct Hv as (c & <- & Hc).
    exists c. split; [assumption|]. split.
    + apply Forall_forall. intros u Hu. apply filter_In in Hu.
      destruct Hu as [Hu Cu]. split; [assumption|].
      unfold close in Cu. now apply ltb_lt.
    + unfold spec_emit.
      destruct (Nat.eqb_spec (length (spec_cluster centers c)) 1)
        as [E|E].
      * left. split; [now apply cluster_single|reflexivity].
      * right. split; [|reflexivity].
        pose proof (cluster_nonempty centers c Hc).
        destruct (spec_cluster centers c); [contradiction|simpl in *; lia].
Qed.

(** On exact rationals, where the mean of a cluster does not depend on
    the order in which it is added up, [dedupe] returns the same output
    sequence on a permutation of the input. *)
Lemma exact_dedupe_order_independent (centers centers' : list Qc) :
  Permutation centers centers' -> dedupe centers = dedupe centers'.
Proof.
  intro P. rewrite !dedupe_spec. unfold spec_dedupe.
  apply unique_permutation.
  rewrite (map_ext _ _ (fun c => emit_permutation centers centers' c P)).
  now apply Permutation_map.
Qed.


(** On exact rationals and on an input whose clusters do not chain, no
    two different values of the output of one pass lie within 0.01 of
    each other, and [dedupe] applied to that output returns it
    unchanged. *)
Lemma exact_dedupe_idempotent_unchained (centers : list Qc) :
  unchained centers ->
  separated (dedupe centers)
  /\ dedupe (dedupe centers) = dedupe centers.
Proof.
  intro H.
  assert (Sep : separated (dedupe centers)) by now apply dedupe_separated.
  split; [exact Sep|].
  apply pass_fixed; [|exact Sep].
  unfold dedupe at 1. apply unique_ascending.
Qed.

Example exact_two_clusters_fixed :
  unchained Sample.two_clusters
  /\ dedupe (dedupe Sample.two_clusters) = dedupe Sample.two_clusters.
Proof.
  assert (H : unchained Sample.two_clusters)
    by (apply unchainedb_spec; vm_compute; reflexivity).
  split; [exact H|].
  exact (proj2 (exact_dedupe_idempotent_unchained Sample.two_clusters H)).
Qed.

End DedupeClaims.

(** ** Computations and loops *)

Section Computations.

Context {A B : Type}.

Lemma bind_ret_l (a : A) (k : A -> M B) : bind (ret a) k = k a.
Proof. unfold bind, ret. now destruct (k a). Qed.

Lemma bind_value (m : M A) (k : A -> M B) (a : A) :
  outcome m = inr a ->
  outcome (bind m k) = outcome (k a)
  /\ trace (bind m k) = trace m ++ trace (k a).
Proof.
  destruct m as [[e|a'] t]; simpl; intro H; [discriminate|].
  injection H as ->. now destruct (k a).
Qed.

Lemma bind_error (m : M A) (k : A -> M B) (e : error) :
  outcome m = inl e ->
  outcome (bind m k) = inl e /\ trace (bind m k) = trace m.
Proof.
  destruct m as [[e'|a] t]; simpl; intro H; [|discriminate].
  now injection H as ->.
Qed.

Lemma bind_inr (m : M A) (k : A -> M B) (b : B) :
  outcome (bind m k) = inr b ->
  exists a, outcome m = inr a /\ outcome (k a) = inr b
            /\ trace (bind m k) = trace m ++ trace (k a).
Proof.
  intro H. destruct (outcome m) as [e|a] eqn:E.
  - destruct (bind_error m k e E) as [H' _]. congruence.
  - destruct (bind_value m k a E) as [Ho Ht].
    exists a. repeat split; congruence.
Qed.

End Computations.

Section Loops.

Context {A S : Type}.

Lemma bind_assoc {B C : Type} (m : M A) (f : A -> M B) (g : B -> M C) :
  bind (bind m f) g = bind m (fun a => bind (f a) g).
Proof.
  destruct m as [[e|a] t]; simpl; [reflexivity|].
  destruct (f a) as [[e|b] t']; simpl; [reflexivity|].
  destruct (g b) as [r t'']. now rewrite app_assoc.
Qed.

Lemma bind_ret_r (m : M A) : bind m ret = m.
Proof.
  destruct m as [[e|a] t]; simpl; [reflexivity|].
  now rewrite app_nil_r.
Qed.

Lemma bind_ext {B : Type} (m : M A) (f g : A -> M B) :
  (forall a, f a = g a) -> bind m f = bind m g.
Proof.
  intro H. destruct m as [[e|a] t]; simpl; [reflexivity|].
  now rewrite H.
Qed.

End Loops.

Section ForEach.

Context {A S : Type}.

Lemma for_each_app (l1 l2 : list A) (body : S -> A -> M S) (s : S) :
  for_each (l1 ++ l2) body s
  = bind (for_each l1 body s) (for_each l2 body).
Proof.
  revert s. induction l1 as [|a r IH]; intro s; cbn [for_each app].
  - now rewrite bind_ret_l.
  - rewrite bind_assoc. apply bind_ext. intro s'. apply IH.
Qed.

Lemma for_each_ext (l : list A) (body body' : S -> A -> M S) (s : S) :
  (forall s a, In a l -> body s a = body' s a) ->
  for_each l body s = for_each l body' s.
Proof.
  revert s. induction l as [|a r IH]; intros s H; cbn [for_each];
    [reflexivity|].
  rewrite (H s a) by now left.
  apply bind_ext. intro s'. apply IH. intros. apply H. now right.
Qed.

Lemma for_each_map {B : Type} (f : B -> A) (l : list B)
    (body : S -> A -> M S) (s : S) :
  for_each (map f l) body s = for_each l (fun s b => body s (f b)) s.
Proof.
  revert s. induction l as [|b r IH]; intro s; cbn [for_each map flat_map];
    [reflexivity|].
  apply bind_ext. intro s'. apply IH.
Qed.

Lemma for_each_flat_map {B : Type} (f : B -> list A) (l : list B)
    (body : S -> A -> M S) (s : S) :
  for_each (flat_map f l) body s
  = for_each l (fun s b => for_each (f b) body s) s.
Proof.
  revert s. induction l as [|b r IH]; intro s; cbn [for_each map flat_map];
    [reflexivity|].
  rewrite for_each_app. apply bind_ext. intro s'. apply IH.
Qed.

(** A loop over the indices of [l] that only reads [l[i]] is a loop over
    the entries of [l]. *)
Lemma for_each_index (l : list A) (d : A) (body : S -> A -> M S) (s : S) :
  for_each (seq 0 (length l)) (fun s i => body s (nth i l d)) s
  = for_each l body s.
Proof.
  rewrite <- (for_each_map (fun i => nth i l d)).
  now rewrite (map_nth_seq (fun a => a) l d), map_id.
Qed.

End ForEach.

(** ** The candidate detector (lines 81-88) *)

Section TrimZeros.

Lemma trim_incl (a : list Z) (p : Z) :
  In p (NumPy.trim_zeros_f a) -> In p a.
Proof.
  induction a as [|v r IH]; simpl; [tauto|].
  destruct (v =? 0)%Z; [intro; right; auto|tauto].
Qed.

Lemma trim_head (a : list Z) : hd_error (NumPy.trim_zeros_f a) <> Some 0%Z.
Proof.
  induction a as [|v r IH]; simpl; [discriminate|].
  destruct (Z.eqb_spec v 0); [assumption|]. simpl. congruence.
Qed.

Lemma trim_length (a : list Z) :
  (length (NumPy.trim_zeros_f a) <= length a)%nat.
Proof.
  induction a as [|v r IH]; simpl; [lia|].
  destruct (v =? 0)%Z; simpl; lia.
Qed.

Lemma trim_sorted (a : list Z) :
  StronglySorted Z.le (0%Z :: a) -> ~ In 0%Z (NumPy.trim_zeros_f a).
Proof.
  induction a as [|v r IH]; intro S; simpl; [tauto|].
  inversion S as [|? ? Sa Fa]; subst.
  destruct (Z.eqb_spec v 0) as [->|N].
  - apply IH. constructor.
    + now inversion Sa.
    + now inversion Fa.
  - inversion Sa as [|? ? _ Fr]; subst. inversion Fa; subst.
    rewrite Forall_forall in Fr.
    intros [E|I]; [lia|]. specialize (Fr 0%Z I). lia.
Qed.

Lemma filter_sorted (p : Z -> bool) (a : list Z) :
  StronglySorted Z.le a -> StronglySorted Z.le (filter p a).
Proof.
  induction 1 as [|v r S IH F]; simpl; [constructor|].
  destruct (p v); [|assumption].
  constructor; [assumption|].
  rewrite Forall_forall in *. intros w Hw.
  apply filter_In in Hw. now apply F.
Qed.

End TrimZeros.

Section Detector.

Variables (x : list Qc) (lo_lim hi_lim : Qc).

Lemma q_window_entries (first_pass_peaks : list Z) :
  q_window x first_pass_peaks lo_lim hi_lim
  = for_each first_pass_peaks (keep x lo_lim hi_lim) NumPy.zeros0.
Proof.
  unfold q_window. rewrite <- (for_each_index first_pass_peaks 0%Z).
  reflexivity.
Qed.

Lemma keep_run (acc : list Z) (p : Z) :
  keep x lo_lim hi_lim acc p =
  match NumPy.getitem x p with
  | Some _ => ret (if in_window x lo_lim hi_lim p then acc ++ [p] else acc)
  | None => raise IndexError
  end.
Proof.
  unfold keep, item, in_window.
  destruct (NumPy.getitem x p) as [q|]; [|reflexivity].
  rewrite bind_ret_l.
  now destruct (NumPy.gtb q lo_lim && NumPy.ltb q hi_lim)%bool.
Qed.

Lemma keep_loop (l : list Z) (acc kept : list Z) :
  outcome (for_each l (keep x lo_lim hi_lim) acc) = inr kept ->
  for_each l (keep x lo_lim hi_lim) acc = ret kept
  /\ kept = acc ++ filter (in_window x lo_lim hi_lim) l
  /\ Forall (fun p => NumPy.getitem x p <> None) l.
Proof.
  revert acc. induction l as [|p r IH]; intros acc H.
  - cbn in H. injection H as <-. cbn [for_each filter].
    now rewrite app_nil_r.
  - cbn [for_each filter] in *. rewrite keep_run in *.
    destruct (NumPy.getitem x p) as [q|] eqn:G; [|discriminate].
    rewrite bind_ret_l in *.
    destruct (IH _ H) as (E & K & F).
    split; [exact E|]. split.
    + rewrite K. destruct (in_window x lo_lim hi_lim p);
        [now rewrite <- app_assoc|reflexivity].
    + constructor; [congruence|assumption].
Qed.

Lemma keep_loop_total (l : list Z) (acc : list Z) :
  Forall (fun p => NumPy.getitem x p <> None) l ->
  for_each l (keep x lo_lim hi_lim) acc
  = ret (acc ++ filter (in_window x lo_lim hi_lim) l).
Proof.
  revert acc. induction l as [|p r IH]; intros acc F;
    cbn [for_each filter].
  - now rewrite app_nil_r.
  - inversion F as [|? ? Hp Fr]; subst.
    rewrite keep_run.
    destruct (NumPy.getitem x p) as [q|] eqn:G; [|contradiction].
    rewrite bind_ret_l, (IH _ Fr).
    destruct (in_window x lo_lim hi_lim p);
      [now rewrite <- app_assoc|reflexivity].
Qed.

Lemma q_window_run (first_pass_peaks kept : list Z) :
  outcome (q_window x first_pass_peaks lo_lim hi_lim) = inr kept ->
  q_window x first_pass_peaks lo_lim hi_lim = ret kept
  /\ kept = filter (in_window x lo_lim hi_lim) first_pass_peaks.
Proof.
  rewrite q_window_entries. intro H.
  destruct (keep_loop _ _ _ H) as (E & K & _). now split.
Qed.

Lemma in_window_spec (p : Z) :
  in_window x lo_lim hi_lim p = true <->
  exists q, NumPy.getitem x p = Some q /\ lo_lim < q /\ q < hi_lim.
Proof.
  unfold in_window. destruct (NumPy.getitem x p) as [q|].
  - rewrite andb_true_iff. unfold NumPy.gtb. rewrite !ltb_lt. split.
    + intros [? ?]. now exists q.
    + intros (q' & E & ? & ?). injection E as <-. now split.
  - split; [discriminate|]. intros (q & E & _). discriminate.
Qed.

End Detector.

(** ** The fitting loop (lines 91-102) *)

Section FittingLoop.

Variable voigt_fit : list Qc -> list Qc -> Qc -> String.string + (Qc * Qc).
Variables x y : list Qc.

Lemma range_widths : NumPy.range 3 10 = widths.
Proof. reflexivity. Qed.

Lemma fit_all_jobs (cands : list Z) :
  fit_all voigt_fit x y cands
  = for_each (jobs cands) (job_step voigt_fit x y) NumPy.zeros0.
Proof.
  unfold fit_all, jobs.
  rewrite for_each_flat_map.
  rewrite <- (for_each_index cands 0%Z).
  apply for_each_ext. intros s i _. unfold fit_candidate.
  now rewrite range_widths, for_each_map.
Qed.

Lemma fit_step_turn (c j : Z) (acc : list Qc) :
  turn voigt_fit x y c j acc (fit_step voigt_fit x y c acc j).
Proof.
  pose proof (turn_index voigt_fit x y c j acc) as T1.
  pose proof (turn_raised voigt_fit x y c j acc) as T2.
  pose proof (turn_fitted voigt_fit x y c j acc) as T3.
  unfold fit_step, fit_call, item, fitting in *.
  destruct (NumPy.getitem x c) as [q|]; [|now apply T1].
  rewrite bind_ret_l.
  destruct (voigt_fit _ _ q) as [who|r] eqn:V.
  - now apply T2.
  - apply (T3 _ r); [reflexivity|exact V].
Qed.

Lemma job_loop_ok (js : list (Z * Z)) (acc fc : list Qc) :
  outcome (for_each js (job_step voigt_fit x y) acc) = inr fc ->
  exists results,
    fc = acc ++ flat_map flat results
    /\ map Some (trace (for_each js (job_step voigt_fit x y) acc))
       = map (fun cj => fit_call x y (fst cj) (snd cj)) js
    /\ Forall2 (produces voigt_fit)
               (trace (for_each js (job_step voigt_fit x y) acc)) results.
Proof.
  revert acc. induction js as [|[c j] r IH]; intros acc H.
  - cbn in H. injection H as <-. exists []. cbn.
    rewrite app_nil_r. repeat split. constructor.
  - cbn [for_each] in *.
    destruct (bind_inr _ _ _ H) as (acc' & H1 & H2 & Ht).
    rewrite Ht. clear Ht H.
    change (job_step voigt_fit x y acc (c, j))
      with (fit_step voigt_fit x y c acc j) in *.
    destruct (fit_step_turn c j acc) as [C|ev who C|ev res C V];
      try discriminate.
    cbn in H1. injection H1 as <-.
    destruct (IH _ H2) as (results & E & T & P).
    exists (res :: results). cbn [trace snd app map flat_map fst].
    repeat split.
    + rewrite E. now rewrite <- app_assoc.
    + now rewrite T, C.
    + constructor; [exact V|exact P].
Qed.

Lemma job_loop_trace (js : list (Z * Z)) (acc : list Qc) (ev : event) :
  In ev (trace (for_each js (job_step voigt_fit x y) acc)) ->
  exists cj, In cj js /\ fit_call x y (fst cj) (snd cj) = Some ev.
Proof.
  revert acc. induction js as [|[c j] r IH]; intros acc H.
  - cbn in H. contradiction.
  - cbn [for_each] in H.
    change (job_step voigt_fit x y acc (c, j))
      with (fit_step voigt_fit x y c acc j) in *.
    destruct (fit_step_turn c j acc) as [C|ev0 who C|ev0 res C V].
    + cbn in H. contradiction.
    + cbn in H. destruct H as [<-|[]].
      exists (c, j). split; [now left|exact C].
    + unfold bind in H.
      destruct (for_each r (job_step voigt_fit x y) (acc ++ flat res))
        as [o t] eqn:R.
      cbn in H. destruct H as [<-|H].
      * exists (c, j). split; [now left|exact C].
      * destruct (IH (acc ++ flat res)) as (cj & Hin & Hc).
        { rewrite R. exact H. }
        exists cj. split; [now right|exact Hc].
Qed.

Lemma job_loop_benign (js : list (Z * Z)) (acc : list Qc) :
  outcome (for_each js (job_step voigt_fit x y) acc)
  <> inl WINDOW_OUT_OF_BOUNDS.
Proof.
  revert acc. induction js as [|[c j] r IH]; intros acc.
  - cbn. discriminate.
  - cbn [for_each].
    change (job_step voigt_fit x y acc (c, j))
      with (fit_step voigt_fit x y c acc j).
    destruct (fit_step_turn c j acc) as [C|ev0 who C|ev0 res C V];
      try (cbn; discriminate).
    unfold bind. specialize (IH (acc ++ flat res)).
    destruct (for_each r (job_step voigt_fit x y) (acc ++ flat res)) as [o t].
    exact IH.
Qed.

Lemma jobs_In (cands : list Z) (c w : Z) :
  In (c, w) (jobs cands) <-> In c cands /\ In w widths.
Proof.
  unfold jobs. rewrite in_flat_map. split.
  - intros (c' & Hc & Hw). apply in_map_iff in Hw.
    destruct Hw as (w' & E & Hw). injection E as -> ->. now split.
  - intros [Hc Hw]. exists c. split; [assumption|].
    now apply in_map.
Qed.

Lemma jobs_length (cands : list Z) :
  length (jobs cands) = (7 * length cands)%nat.
Proof.
  unfold jobs. induction cands as [|c r IH]; [reflexivity|].
  cbn [flat_map]. rewrite length_app, IH, length_map. simpl. lia.
Qed.

Lemma jobs_calls (cands : list Z) :
  map (fun cj => fit_call x y (fst cj) (snd cj)) (jobs cands)
  = flat_map (fun c => map (fit_call x y c) widths) cands.
Proof.
  unfold jobs. induction cands as [|c r IH]; [reflexivity|].
  cbn [flat_map]. rewrite map_app, IH, map_map. reflexivity.
Qed.

End FittingLoop.

(** ** [finder] as a whole *)

Section FinderRuns.

Variable find_peaks_cwt : list Qc -> list Z -> String.string + list Z.
Variable voigt_fit : list Qc -> list Qc -> Qc -> String.string + (Qc * Qc).
Variables (x y : list Qc) (lo_lim hi_lim : Qc).

Lemma second_pass_run (first_pass_peaks cands : list Z) :
  outcome (second_pass x first_pass_peaks lo_lim hi_lim) = inr cands ->
  second_pass x first_pass_peaks lo_lim hi_lim = ret cands
  /\ cands = NumPy.trim_zeros_f
               (filter (in_window x lo_lim hi_lim) first_pass_peaks).
Proof.
  unfold second_pass. intro H.
  destruct (bind_inr _ _ _ H) as (kept & Hk & Hr & _).
  destruct (q_window_run _ _ _ _ _ Hk) as [E K].
  rewrite E, bind_ret_l in *. cbn in Hr. injection Hr as <-.
  split; [reflexivity|now rewrite K].
Qed.

Lemma detect_run (sens : Z) (cands : list Z) :
  outcome (detect find_peaks_cwt x y sens lo_lim hi_lim) = inr cands ->
  detect find_peaks_cwt x y sens lo_lim hi_lim = ret cands
  /\ exists first_pass_peaks,
       find_peaks_cwt y (NumPy.range 1 sens) = inr first_pass_peaks
       /\ cands = NumPy.trim_zeros_f
                    (filter (in_window x lo_lim hi_lim) first_pass_peaks).
Proof.
  unfold detect, call. intro H.
  destruct (find_peaks_cwt y (NumPy.range 1 sens)) as [who|fpp];
    [discriminate|].
  rewrite bind_ret_l in *.
  destruct (second_pass_run _ _ H) as [E K].
  split; [exact E|]. now exists fpp.
Qed.

Lemma detect_benign (sens : Z) :
  outcome (detect find_peaks_cwt x y sens lo_lim hi_lim)
  <> inl WINDOW_OUT_OF_BOUNDS.
Proof.
  unfold detect, call.
  destruct (find_peaks_cwt y (NumPy.range 1 sens)) as [who|fpp];
    [cbn; discriminate|].
  rewrite bind_ret_l. unfold second_pass.
  rewrite q_window_entries.
  generalize (@NumPy.zeros0 Z).
  induction fpp as [|p r IH]; intro acc.
  - cbn. discriminate.
  - cbn [for_each]. rewrite keep_run.
    destruct (NumPy.getitem x p); [|cbn; discriminate].
    rewrite bind_ret_l. apply IH.
Qed.

Lemma figure_run (fig : Z) (peaks : list Qc) :
  bind (if (fig =? 1)%Z
        then tell (Figure x y lo_lim hi_lim peaks) else ret tt)
       (fun _ => ret peaks)
  = (inr peaks,
     if (fig =? 1)%Z then [Figure x y lo_lim hi_lim peaks] else []).
Proof. now destruct (fig =? 1)%Z. Qed.

Lemma refine_peaks_run (cands : list Z) (fig : Z) (peaks : list Qc) :
  outcome (refine_peaks voigt_fit x y cands lo_lim hi_lim fig)
    = inr peaks ->
  exists fitted_centre,
    outcome (fit_all voigt_fit x y cands) = inr fitted_centre
    /\ peaks = dedupe fitted_centre
    /\ trace (refine_peaks voigt_fit x y cands lo_lim hi_lim fig)
       = trace (fit_all voigt_fit x y cands)
         ++ (if (fig =? 1)%Z
             then [Figure x y lo_lim hi_lim peaks] else []).
Proof.
  unfold refine_peaks. intro H.
  destruct (bind_inr _ _ _ H) as (fc & Hf & Hr & Ht).
  rewrite Ht. rewrite figure_run in *. cbn in Hr. injection Hr as <-.
  exists fc. repeat split. exact Hf.
Qed.

Lemma refine_peaks_trace (cands : list Z) (fig : Z) (ev : event) :
  In ev (trace (refine_peaks voigt_fit x y cands lo_lim hi_lim fig)) ->
  is_fit ev = true ->
  In ev (trace (fit_all voigt_fit x y cands)).
Proof.
  unfold refine_peaks.
  destruct (fit_all voigt_fit x y cands) as [[e|fc] t]; cbn [bind trace snd].
  - intros H _. exact H.
  - rewrite figure_run. cbn [trace snd]. intros H F.
    apply in_app_or in H. destruct H as [H|H]; [assumption|].
    destruct (fig =? 1)%Z; [|contradiction].
    destruct H as [<-|[]]. discriminate.
Qed.

Lemma refine_peaks_benign (cands : list Z) (fig : Z) :
  outcome (refine_peaks voigt_fit x y cands lo_lim hi_lim fig)
  <> inl WINDOW_OUT_OF_BOUNDS.
Proof.
  unfold refine_peaks.
  pose proof (job_loop_benign voigt_fit x y (jobs cands) NumPy.zeros0)
    as B.
  rewrite <- fit_all_jobs in B.
  destruct (fit_all voigt_fit x y cands) as [[e|fc] t]; cbn [bind].
  - cbn in *. congruence.
  - rewrite figure_run. cbn. discriminate.
Qed.

Lemma fit_events_only (cands : list Z) :
  filter is_fit (trace (fit_all voigt_fit x y cands))
  = trace (fit_all voigt_fit x y cands).
Proof.
  apply forallb_filter_id. apply forallb_forall. intros ev H.
  rewrite fit_all_jobs in H.
  destruct (job_loop_trace _ _ _ _ _ _ H) as (cj & _ & C).
  unfold fit_call in C.
  destruct (NumPy.getitem x (fst cj)); [|discriminate].
  now injection C as <-.
Qed.

End FinderRuns.

(** ** Python slices at the edge of the curve *)

Section Slices.

Context {A : Type}.

Lemma slice_cut_at_end (a : list A) (s e : Z) :
  (0 <= s)%Z -> (Z.of_nat (length a) < e)%Z ->
  NumPy.slice a s e = skipn (Z.to_nat s) a.
Proof.
  intros Hs He. unfold NumPy.slice, NumPy.bound.
  destruct (Z.ltb_spec s 0); [lia|].
  destruct (Z.ltb_spec e 0); [lia|].
  rewrite (Z.min_r e) by lia.
  destruct (Z.le_gt_cases s (Z.of_nat (length a))) as [L|L].
  - rewrite Z.min_l by lia. apply firstn_all2.
    rewrite length_skipn. lia.
  - rewrite Z.min_r by lia. rewrite Z.sub_diag. cbn [Z.to_nat firstn].
    symmetry. apply skipn_all2. lia.
Qed.

Lemma slice_empty_at_start (a : list A) (c w : Z) :
  (c - w < 0)%Z -> (0 <= c)%Z -> (2 * w <= Z.of_nat (length a))%Z ->
  NumPy.slice a (c - w) (c + w) = [].
Proof.
  intros Hs Hc Hw. unfold NumPy.slice, NumPy.bound.
  destruct (Z.ltb_spec (c - w) 0); [|lia].
  destruct (Z.ltb_spec (c + w) 0); [lia|].
  replace (Z.to_nat _) with 0%nat by lia. reflexivity.
Qed.

Lemma slice_inside (a : list A) (c w : Z) :
  (0 <= w)%Z -> (0 <= c - w)%Z -> (c + w <= Z.of_nat (length a))%Z ->
  length (NumPy.slice a (c - w) (c + w)) = Z.to_nat (2 * w).
Proof.
  intros Hw Hs He. unfold NumPy.slice, NumPy.bound.
  destruct (Z.ltb_spec (c - w) 0); [lia|].
  destruct (Z.ltb_spec (c + w) 0); [lia|].
  rewrite length_firstn, length_skipn. lia.
Qed.

End Slices.

(** ** The pipeline: the properties of sections 4.1, 4.2, 4.4 and 7 *)

Section FinderClaims.

Variable find_peaks_cwt : list Qc -> list Z -> String.string + list Z.
Variable voigt_fit : list Qc -> list Qc -> Qc -> String.string + (Qc * Qc).

Lemma values_of_inr (m : M (list Qc)) (l : list Qc) :
  Sample.values_of m = Some (Sample.fractions l) -> outcome m = inr l.
Proof.
  unfold Sample.values_of.
  destruct (outcome m) as [e|l']; [discriminate|].
  intro H. injection H as H. f_equal. now apply fractions_inj.
Qed.

Lemma detect_silent (x y : list Qc) (sens : Z) (lo_lim hi_lim : Qc) :
  trace (detect find_peaks_cwt x y sens lo_lim hi_lim) = [].
Proof.
  unfold detect, call.
  destruct (find_peaks_cwt y (NumPy.range 1 sens)) as [who|fpp];
    [reflexivity|].
  rewrite bind_ret_l. unfold second_pass.
  rewrite q_window_entries.
  generalize (@NumPy.zeros0 Z).
  induction fpp as [|p r IH]; intro acc.
  - reflexivity.
  - cbn [for_each]. rewrite keep_run.
    destruct (NumPy.getitem x p); [|reflexivity].
    rewrite bind_ret_l. apply IH.
Qed.

(** C4. Every candidate that the detector returns is the index of a
    sample whose q lies strictly between [lo_lim] and [hi_lim]. *)
Theorem detector_candidates_in_window (x y : list Qc) (sens : Z)
    (lo_lim hi_lim : Qc) (cands : list Z) (c : Z) :
  outcome (detect find_peaks_cwt x y sens lo_lim hi_lim) = inr cands ->
  In c cands ->
  exists q, NumPy.getitem x c = Some q /\ lo_lim < q /\ q < hi_lim.
Proof.
  intros H Hc.
  destruct (detect_run _ _ _ _ _ _ _ H) as (_ & fpp & _ & K).
  subst cands. apply trim_incl in Hc. apply filter_In in Hc.
  destruct Hc as [_ W]. exact (proj1 (in_window_spec _ _ _ _) W).
Qed.

(** C8. When the first index that passes the q-window test of line 86 is
    sample 0, line 88 removes it without any error or event: the
    detector returns the rest of the kept indices, trimmed, and [finder]
    goes on with those alone; sample 0 was inside the window, and when
    the peak search reported its indices in ascending order (as scipy
    does), or index 0 only at the front, no fit is made for it. *)
Theorem first_sample_candidate_dropped (table : list (Qc * Qc))
    (sens : Z) (lo_lim hi_lim : Qc) (fig : Z)
    (first_pass_peaks rest : list Z) :
  let x := map fst table in
  let y := map snd table in
  find_peaks_cwt y (NumPy.range 1 sens) = inr first_pass_peaks ->
  outcome (q_window x first_pass_peaks lo_lim hi_lim) = inr (0%Z :: rest) ->
  (exists q, NumPy.getitem x 0 = Some q /\ lo_lim < q /\ q < hi_lim)
  /\ detect find_peaks_cwt x y sens lo_lim hi_lim
     = (inr (NumPy.trim_zeros_f rest), [])
  /\ hd_error (NumPy.trim_zeros_f rest) <> Some 0%Z
  /\ (length (NumPy.trim_zeros_f rest) < length (0%Z :: rest))%nat
  /\ finder find_peaks_cwt voigt_fit table sens lo_lim hi_lim fig
     = refine_peaks voigt_fit x y (NumPy.trim_zeros_f rest)
                    lo_lim hi_lim fig
  /\ (~ In 0%Z rest \/ StronglySorted Z.le first_pass_peaks ->
      ~ In 0%Z (NumPy.trim_zeros_f rest)
      /\ forall ev,
           In ev (trace (finder find_peaks_cwt voigt_fit table sens
                                lo_lim hi_lim fig)) ->
           is_fit ev = true ->
           exists c w, c <> 0%Z /\ fit_call x y c w = Some ev).
Proof.
  intros x y Hf Hk.
  destruct (q_window_run _ _ _ _ _ Hk) as [E K].
  assert (D : detect find_peaks_cwt x y sens lo_lim hi_lim
              = ret (NumPy.trim_zeros_f rest)).
  { unfold detect, second_pass. rewrite Hf. cbn [call].
    rewrite bind_ret_l, E, bind_ret_l. reflexivity. }
  assert (R : finder find_peaks_cwt voigt_fit table sens lo_lim hi_lim fig
              = refine_peaks voigt_fit x y (NumPy.trim_zeros_f rest)
                             lo_lim hi_lim fig).
  { unfold finder. fold x y. now rewrite D, bind_ret_l. }
  split; [|split; [exact D|split; [apply trim_head|split; [|split]]]].
  - apply in_window_spec.
    assert (I : In 0%Z (filter (in_window x lo_lim hi_lim)
                               first_pass_peaks))
      by (rewrite <- K; now left).
    apply filter_In in I. exact (proj2 I).
  - pose proof (trim_length rest). simpl. lia.
  - exact R.
  - intro N.
    assert (N' : ~ In 0%Z (NumPy.trim_zeros_f rest)).
    { destruct N as [N|S]; [intro I; apply N; now apply trim_incl in I|].
      apply trim_sorted. rewrite K. now apply filter_sorted. }
    split; [exact N'|].
    intros ev Hev F. rewrite R in Hev.
    apply refine_peaks_trace in Hev; [|exact F].
    rewrite fit_all_jobs in Hev.
    destruct (job_loop_trace _ _ _ _ _ _ Hev) as ([c w] & Hj & C).
    exists c, w. split; [|exact C].
    apply jobs_In in Hj. destruct Hj as [Hc _].
    intros ->. now apply N'.
Qed.

(** C10. When the detector returns no candidate, [finder] does not fail:
    it makes no fit and returns the empty PeakSet (after showing the
    figure, without peak lines, when [fig] is 1). *)
Theorem no_candidates_empty_peakset (table : list (Qc * Qc)) (sens : Z)
    (lo_lim hi_lim : Qc) (fig : Z) :
  let x := map fst table in
  let y := map snd table in
  outcome (detect find_peaks_cwt x y sens lo_lim hi_lim) = inr [] ->
  finder find_peaks_cwt voigt_fit table sens lo_lim hi_lim fig
  = (inr [], if (fig =? 1)%Z then [Figure x y lo_lim hi_lim []] else []).
Proof.
  intros x y H.
  destruct (detect_run _ _ _ _ _ _ _ H) as (D & _).
  unfold finder. fold x y. rewrite D, bind_ret_l.
  unfold refine_peaks, fit_all. cbn [length seq for_each].
  rewrite bind_ret_l. apply figure_run.
Qed.

(** C2, amended. [finder] checks no window against the curve and never
    ends with WINDOW_OUT_OF_BOUNDS.  Every fit it makes is on the Python
    slice [x[c-w : c+w]] of a candidate [c] and a half-width [w] of
    3..9, and in a run that returns every candidate has been fitted at
    every half-width, whether the window leaves the curve or not.  The
    slice is cut at the end of the curve when [c + w] exceeds its
    length, and it is empty when [c - w] is negative on a curve of at
    least [2 w] samples. *)
Theorem window_never_checked (table : list (Qc * Qc)) (sens : Z)
    (lo_lim hi_lim : Qc) (fig : Z) :
  let x := map fst table in
  let y := map snd table in
  let run := finder find_peaks_cwt voigt_fit table sens lo_lim hi_lim fig in
  outcome run <> inl WINDOW_OUT_OF_BOUNDS
  /\ (forall ev, In ev (trace run) -> is_fit ev = true ->
        exists c w, In w widths /\ fit_call x y c w = Some ev)
  /\ (forall cands peaks c w,
        outcome (detect find_peaks_cwt x y sens lo_lim hi_lim) = inr cands ->
        outcome run = inr peaks ->
        In c cands -> In w widths ->
        exists ev, fit_call x y c w = Some ev /\ In ev (trace run))
  /\ (forall c w,
        (0 <= c - w)%Z -> (Z.of_nat (length x) < c + w)%Z ->
        NumPy.slice x (c - w) (c + w) = skipn (Z.to_nat (c - w)) x)
  /\ (forall c w,
        (c - w < 0)%Z -> (0 <= c)%Z -> (2 * w <= Z.of_nat (length x))%Z ->
        NumPy.slice x (c - w) (c + w) = []).
Proof.
  intros x y run.
  assert (Cases :
    (exists e, outcome (detect find_peaks_cwt x y sens lo_lim hi_lim)
               = inl e /\ outcome run = inl e /\ trace run = [])
    \/ (exists cands,
          outcome (detect find_peaks_cwt x y sens lo_lim hi_lim)
          = inr cands
          /\ run = refine_peaks voigt_fit x y cands lo_lim hi_lim fig)).
  { destruct (outcome (detect find_peaks_cwt x y sens lo_lim hi_lim))
      as [e|cands] eqn:D.
    - left. exists e. split; [reflexivity|].
      destruct (bind_error _
                  (fun spp => refine_peaks voigt_fit x y spp
                                           lo_lim hi_lim fig) e D)
        as [O T].
      split; [exact O|]. unfold run, finder. fold x y.
      rewrite T. apply detect_silent.
    - right. exists cands. split; [reflexivity|].
      destruct (detect_run _ _ _ _ _ _ _ D) as (E & _).
      unfold run, finder. fold x y. now rewrite E, bind_ret_l. }
  split; [|split; [|split; [|split]]].
  - destruct Cases as [(e & D & O & _)|(cands & _ & R)].
    + rewrite O. intro E. injection E as ->.
      exact (detect_benign _ _ _ _ _ _ D).
    + rewrite R. apply refine_peaks_benign.
  - intros ev Hev F.
    destruct Cases as [(e & _ & _ & T)|(cands & _ & R)].
    + rewrite T in Hev. contradiction.
    + rewrite R in Hev. apply refine_peaks_trace in Hev; [|exact F].
      rewrite fit_all_jobs in Hev.
      destruct (job_loop_trace _ _ _ _ _ _ Hev) as ([c w] & Hj & C).
      apply jobs_In in Hj. exists c, w. now split.
  - intros cands peaks c w Hd Hr Hc Hw.
    destruct Cases as [(e & D & _)|(cands' & D & R)]; [congruence|].
    assert (cands' = cands) by congruence. subst cands'.
    rewrite R in *.
    destruct (refine_peaks_run _ _ _ _ _ _ _ _ Hr) as (fc & Hf & _ & T).
    rewrite fit_all_jobs in Hf.
    destruct (job_loop_ok _ _ _ _ _ _ Hf) as (results & _ & C & _).
    assert (I : In (fit_call x y c w)
                   (map (fun cj => fit_call x y (fst cj) (snd cj))
                        (jobs cands))).
    { apply in_map_iff. exists (c, w). split; [reflexivity|].
      now apply jobs_In. }
    rewrite <- C in I. apply in_map_iff in I.
    destruct I as (ev & E & Hev). exists ev. split; [now symmetry|].
    rewrite T, fit_all_jobs. apply in_or_app. now left.
  - intros c w. apply slice_cut_at_end.
  - intros c w. apply slice_empty_at_start.
Qed.

End FinderClaims.

(** ** The sample runs *)

Section SampleRuns.

Import Sample.


Lemma dedupe_output_bound_witness :
  In (NumPy.lit 1 128) (dedupe chain)
  /\ exists c, In c chain
       /\ Forall (fun u => In u chain /\ Qcabs (u - c) < tol)
                 (spec_cluster chain c)
       /\ ((spec_cluster chain c = [c] /\ NumPy.lit 1 128 = c)
           \/ ((1 < length (spec_cluster chain c))%nat
               /\ NumPy.lit 1 128 = NumPy.mean (spec_cluster chain c))).
Proof.
  assert (H : In (NumPy.lit 1 128) (dedupe chain)).
  { replace (dedupe chain)
      with [NumPy.lit 1 256; NumPy.lit 1 128; NumPy.lit 3 256]
      by (apply fractions_inj; vm_compute; reflexivity).
    right; left; reflexivity. }
  split; [exact H|].
  exact (proj2 (proj2 (dedupe_output_bound chain)) _ H).
Defined.

Lemma detector_candidates_in_window_witness :
  outcome (detect (cwt_const [0; 10; 18; 19]%Z) x y 8
                  lo_lim (NumPy.lit 185 100)) = inr [10; 18]%Z
  /\ In 18%Z [10; 18]%Z
  /\ exists q, NumPy.getitem x 18 = Some q
               /\ lo_lim < q /\ q < NumPy.lit 185 100.
Proof.
  assert (H : outcome (detect (cwt_const [0; 10; 18; 19]%Z) x y 8
                              lo_lim (NumPy.lit 185 100))
              = inr [10; 18]%Z) by (vm_compute; reflexivity).
  assert (I : In 18%Z [10; 18]%Z) by (right; left; reflexivity).
  split; [exact H|]. split; [exact I|].
  exact (detector_candidates_in_window _ _ _ _ _ _ _ _ H I).
Defined.

Lemma first_sample_candidate_dropped_witness :
  cwt_const [0; 10; 18]%Z y (NumPy.range 1 8) = inr [0; 10; 18]%Z
  /\ outcome (q_window x [0; 10; 18]%Z (NumPy.lit (-1) 10) hi_lim)
     = inr [0; 10; 18]%Z
  /\ detect (cwt_const [0; 10; 18]%Z) x y 8 (NumPy.lit (-1) 10) hi_lim
     = (inr [10; 18]%Z, [])
  /\ finder (cwt_const [0; 10; 18]%Z) (fit_echo redchi) table 8
            (NumPy.lit (-1) 10) hi_lim 0
     = refine_peaks (fit_echo redchi) x y [10; 18]%Z
                    (NumPy.lit (-1) 10) hi_lim 0.
Proof.
  assert (H1 : cwt_const [0; 10; 18]%Z y (NumPy.range 1 8)
               = inr [0; 10; 18]%Z) by reflexivity.
  assert (H2 : outcome (q_window x [0; 10; 18]%Z (NumPy.lit (-1) 10)
                                 hi_lim)
               = inr [0; 10; 18]%Z) by (vm_compute; reflexivity).
  split; [exact H1|]. split; [exact H2|].
  pose proof (first_sample_candidate_dropped
                (cwt_const [0; 10; 18]%Z) (fit_echo redchi) table 8
                (NumPy.lit (-1) 10) hi_lim 0 [0; 10; 18]%Z [10; 18]%Z
                H1 H2) as (_ & D & _ & _ & R & _).
  split; [exact D|exact R].
Defined.

Lemma no_candidates_empty_peakset_witness :
  outcome (detect (cwt_const [0; 19]%Z) x y 8 lo_lim (NumPy.lit 185 100))
    = inr []
  /\ finder (cwt_const [0; 19]%Z) (fit_echo redchi) table 8
            lo_lim (NumPy.lit 185 100) 1
     = (inr [], [Figure x y lo_lim (NumPy.lit 185 100) []]).
Proof.
  assert (H : outcome (detect (cwt_const [0; 19]%Z) x y 8
                              lo_lim (NumPy.lit 185 100)) = inr [])
    by (vm_compute; reflexivity).
  split; [exact H|].
  exact (no_candidates_empty_peakset
           (cwt_const [0; 19]%Z) (fit_echo redchi) table 8
           lo_lim (NumPy.lit 185 100) 1 H).
Defined.

(** C1 fails on the code. Line 102 appends the whole pair that [fitting]
    returns, so [fitted_centre] holds the reduced chi-square of every fit
    next to its centre: with one candidate at q = 1 and fits of reduced
    chi-square 7, [dedupe] receives 1, 7, 1, 7, ... and [finder] returns
    the peaks 1 and 7. *)
Theorem redchi_enters_peakset :
  values_of (fit_all (fit_echo redchi) x y [10]%Z)
    = Some [1; 7; 1; 7; 1; 7; 1; 7; 1; 7; 1; 7; 1; 7]%Q
  /\ values_of (run [10]%Z 0) = Some [1; 7]%Q.
Proof. split; vm_compute; reflexivity. Qed.

(** C2, as stated, fails. Candidate 18 of a curve of 20 samples: the
    windows of all seven half-widths leave the curve, yet the run
    returns peaks, having fitted windows of 5 to 11 samples in place of
    6 to 18.  Candidate 2: every window is empty and is fitted all the
    same; with a fit that raises on an empty window the run ends with
    that exception, not with WINDOW_OUT_OF_BOUNDS. *)
Lemma window_error_not_surfaced :
  outcome (detect (cwt_const [18]%Z) x y 8 lo_lim hi_lim) = inr [18]%Z
  /\ window_leaves_curve (Z.of_nat (length x)) 18 3
  /\ outcome (run [18]%Z 0) <> inl WINDOW_OUT_OF_BOUNDS
  /\ values_of (run [18]%Z 0) = Some [9 # 5; 7]%Q
  /\ map (@length Q) (windows_of (run [18]%Z 0))
     = [5; 6; 7; 8; 9; 10; 11]%nat
  /\ outcome (detect (cwt_const [2]%Z) x y 8 lo_lim hi_lim) = inr [2]%Z
  /\ window_leaves_curve (Z.of_nat (length x)) 2 3
  /\ values_of (run [2]%Z 0) = Some [1 # 5; 7]%Q
  /\ windows_of (run [2]%Z 0) = [[]; []; []; []; []; []; []]
  /\ outcome (finder (cwt_const [2]%Z) (fit_strict redchi) table 8
                     lo_lim hi_lim 0)
     = inl (Raised "ValueError"%string).
Proof.
  repeat split; try (vm_compute; reflexivity).
  - right. vm_compute. reflexivity.
  - intro E. vm_compute in E. discriminate.
  - left. vm_compute. reflexivity.
Qed.

Lemma window_never_checked_witness :
  outcome (detect (cwt_const [18]%Z) x y 8 lo_lim hi_lim) = inr [18]%Z
  /\ outcome (run [18]%Z 0) = inr [NumPy.lit 9 5; NumPy.lit 7 1]
  /\ In 18%Z [18]%Z /\ In 9%Z widths
  /\ (exists ev, fit_call x y 18 9 = Some ev
                 /\ In ev (trace (run [18]%Z 0)))
  /\ outcome (run [18]%Z 0) <> inl WINDOW_OUT_OF_BOUNDS.
Proof.
  assert (H1 : outcome (detect (cwt_const [18]%Z) x y 8 lo_lim hi_lim)
               = inr [18]%Z) by (vm_compute; reflexivity).
  assert (H2 : outcome (run [18]%Z 0)
               = inr [NumPy.lit 9 5; NumPy.lit 7 1])
    by (apply values_of_inr; vm_compute; reflexivity).
  assert (I1 : In 18%Z [18]%Z) by (left; reflexivity).
  assert (I2 : In 9%Z widths) by (vm_compute; tauto).
  pose proof (window_never_checked
                (cwt_const [18]%Z) (fit_echo redchi) table 8
                lo_lim hi_lim 0) as (B & _ & F & _).
  repeat (split; [assumption|]).
  split; [exact (F _ _ _ _ H1 H2 I1 I2)|exact B].
Defined.

End SampleRuns.

(** * Further properties of the code *)

(** ** The removal of degenerate peaks (lines 104-118) *)

Section DedupeCollapse.

Lemma filter_all {A : Type} (p : A -> bool) (l : list A) :
  (forall a, In a l -> p a = true) -> filter p l = l.
Proof.
  induction l as [|a r IH]; intro H; [reflexivity|].
  simpl. rewrite (H a) by now left.
  f_equal. apply IH. intros. apply H. now right.
Qed.

Lemma unique_constant (l : list Qc) (v : Qc) :
  l <> [] -> (forall a, In a l -> a = v) -> NumPy.unique l = [v].
Proof.
  intros N H.
  pose proof (unique_ascending l) as S.
  assert (All : forall a, In a (NumPy.unique l) -> a = v)
    by (intros a Ha; rewrite unique_In in Ha; now apply H).
  assert (Hv : In v (NumPy.unique l)).
  { rewrite unique_In. destruct l as [|a r]; [contradiction|].
    left. apply H. now left. }
  destruct (NumPy.unique l) as [|a [|b r]]; [contradiction| |].
  - f_equal. apply All. now left.
  - exfalso. inversion S as [|? ? _ F]; subst. inversion F as [|? ? L _]; subst.
    rewrite (All a) in L by now left.
    rewrite (All b) in L by (right; now left).
    exact (Qclt_not_eq _ _ L eq_refl).
Qed.

(** X4. One tight cluster collapses to one peak: when all input centres
    lie within 0.01 of each other, [dedupe] returns a single value, the
    arithmetic mean of the whole input. *)
Theorem dedupe_single_cluster (centers : list Qc) :
  centers <> [] ->
  (forall a b, In a centers -> In b centers -> close a b = true) ->
  dedupe centers = [NumPy.mean centers].
Proof.
  intros N H. rewrite dedupe_spec. unfold spec_dedupe.
  apply unique_constant.
  - destruct centers; [contradiction|discriminate].
  - intros v Hv. apply in_map_iff in Hv. destruct Hv as (c & <- & Hc).
    rewrite (emit_mean centers c Hc). unfold spec_cluster.
    now rewrite filter_all by (intros a Ha; now apply H).
Qed.

Lemma dedupe_single_cluster_witness :
  Sample.tight <> []
  /\ (forall a b, In a Sample.tight -> In b Sample.tight ->
                  close a b = true)
  /\ dedupe Sample.tight = [NumPy.mean Sample.tight].
Proof.
  assert (N : Sample.tight <> []) by discriminate.
  assert (H : forall a b, In a Sample.tight -> In b Sample.tight ->
                          close a b = true).
  { assert (B : forallb (fun a => forallb (close a) Sample.tight)
                        Sample.tight = true) by (vm_compute; reflexivity).
    rewrite forallb_forall in B. intros a b Ha Hb.
    specialize (B a Ha). rewrite forallb_forall in B. now apply B. }
  split; [exact N|]. split; [exact H|].
  exact (dedupe_single_cluster Sample.tight N H).
Defined.

End DedupeCollapse.

(** ** The candidate detector (lines 81-88) *)

Section DetectorOutcomes.

Variable find_peaks_cwt : list Qc -> list Z -> String.string + list Z.
Variable voigt_fit : list Qc -> list Qc -> Qc -> String.string + (Qc * Qc).

Lemma getitem_valid {A : Type} (a : list A) (i : Z) :
  NumPy.getitem a i <> None <-> valid_index (length a) i.
Proof.
  unfold NumPy.getitem, valid_index.
  set (len := Z.of_nat (length a)).
  assert (Side : forall k, (0 <= k < len)%Z ->
                 nth_error a (Z.to_nat k) <> None).
  { intros k Hk. apply nth_error_Some. unfold len in Hk. lia. }
  destruct (Z.ltb_spec i 0) as [Hi|Hi].
  - destruct (Z.leb_spec 0 (i + len)); destruct (Z.ltb_spec (i + len) len);
      cbn [andb]; split; intro G; try lia; try (now contradiction G).
    apply Side. lia.
  - destruct (Z.leb_spec 0 i); destruct (Z.ltb_spec i len);
      cbn [andb]; split; intro G; try lia; try (now contradiction G).
    apply Side. lia.
Qed.

Lemma keep_loop_fail (x : list Qc) (lo_lim hi_lim : Qc)
    (l : list Z) (acc : list Z) :
  Exists (fun p => ~ valid_index (length x) p) l ->
  for_each l (keep x lo_lim hi_lim) acc = raise IndexError.
Proof.
  intro E. revert acc. induction E as [p r Hp|p r E IH]; intro acc;
    cbn [for_each]; rewrite keep_run.
  - destruct (NumPy.getitem x p) eqn:G; [|reflexivity].
    exfalso. apply Hp. apply getitem_valid. congruence.
  - destruct (NumPy.getitem x p); [|reflexivity].
    rewrite bind_ret_l. apply IH.
Qed.

Lemma trim_split (a : list Z) :
  exists k, a = repeat 0%Z k ++ NumPy.trim_zeros_f a.
Proof.
  induction a as [|v r IH]; [now exists 0%nat|].
  simpl. destruct (Z.eqb_spec v 0) as [->|N].
  - destruct IH as (k & E). exists (S k). simpl. now rewrite <- E.
  - now exists 0%nat.
Qed.

(** X5. The detector keeps the order of the peak search: its candidates
    are the reported indices that pass the q-window test, in the order
    in which they were reported and as often, except for a leading run
    of indices 0, which is dropped. *)
Theorem detector_keeps_order (x y : list Qc) (sens : Z)
    (lo_lim hi_lim : Qc) (cands : list Z) :
  outcome (detect find_peaks_cwt x y sens lo_lim hi_lim) = inr cands ->
  exists first_pass_peaks k,
    find_peaks_cwt y (NumPy.range 1 sens) = inr first_pass_peaks
    /\ filter (in_window x lo_lim hi_lim) first_pass_peaks
       = repeat 0%Z k ++ cands
    /\ hd_error cands <> Some 0%Z.
Proof.
  intro H.
  destruct (detect_run _ _ _ _ _ _ _ H) as (_ & fpp & Hf & ->).
  destruct (trim_split (filter (in_window x lo_lim hi_lim) fpp)) as (k & E).
  exists fpp, k. split; [exact Hf|]. split; [exact E|apply trim_head].
Qed.

(** X6. The detector fails in two ways only, and without any event: an
    exception of the peak search is passed on, and a reported index
    outside [-len, len) ends it with numpy's IndexError.  When the peak
    search returns and all its indices are valid, the detector
    returns. *)
Theorem detector_outcomes (x y : list Qc) (sens : Z) (lo_lim hi_lim : Qc) :
  (forall who,
     find_peaks_cwt y (NumPy.range 1 sens) = inl who ->
     detect find_peaks_cwt x y sens lo_lim hi_lim = (inl (Raised who), []))
  /\ (forall first_pass_peaks,
        find_peaks_cwt y (NumPy.range 1 sens) = inr first_pass_peaks ->
        Exists (fun p => ~ valid_index (length x) p) first_pass_peaks ->
        detect find_peaks_cwt x y sens lo_lim hi_lim = (inl IndexError, []))
  /\ (forall first_pass_peaks,
        find_peaks_cwt y (NumPy.range 1 sens) = inr first_pass_peaks ->
        Forall (valid_index (length x)) first_pass_peaks ->
        detect find_peaks_cwt x y sens lo_lim hi_lim
        = (inr (NumPy.trim_zeros_f
                  (filter (in_window x lo_lim hi_lim) first_pass_peaks)),
           [])).
Proof.
  unfold detect. split; [|split].
  - intros who ->. reflexivity.
  - intros fpp -> E. cbn [call]. rewrite bind_ret_l. unfold second_pass.
    rewrite q_window_entries, (keep_loop_fail _ _ _ _ _ E). reflexivity.
  - intros fpp -> F. cbn [call]. rewrite bind_ret_l. unfold second_pass.
    rewrite q_window_entries, keep_loop_total.
    + rewrite bind_ret_l. reflexivity.
    + eapply Forall_impl; [|exact F]. intros p Hp.
      now apply getitem_valid.
Qed.

(** X7. With limits that enclose nothing ([hi_lim <= lo_lim]) no index
    passes the test of line 86: whatever the peak search reports, a
    detector that returns has no candidate, and [finder] returns the
    empty PeakSet without a single fit. *)
Theorem inverted_limits_no_peaks (table : list (Qc * Qc)) (sens : Z)
    (lo_lim hi_lim : Qc) (fig : Z) (cands : list Z) :
  let x := map fst table in
  let y := map snd table in
  hi_lim <= lo_lim ->
  outcome (detect find_peaks_cwt x y sens lo_lim hi_lim) = inr cands ->
  cands = []
  /\ finder find_peaks_cwt voigt_fit table sens lo_lim hi_lim fig
     = (inr [], if (fig =? 1)%Z then [Figure x y lo_lim hi_lim []] else []).
Proof.
  intros x y L H.
  destruct (detect_run _ _ _ _ _ _ _ H) as (D & fpp & _ & K).
  assert (E : cands = []).
  { rewrite K. rewrite filter_none; [reflexivity|].
    intros p _. destruct (in_window x lo_lim hi_lim p) eqn:W;
      [|reflexivity].
    apply in_window_spec in W. destruct W as (q & _ & L1 & L2).
    exfalso. qc_order. }
  split; [exact E|]. rewrite E in D.
  unfold finder. fold x y. rewrite D, bind_ret_l.
  unfold refine_peaks, fit_all. cbn [length seq for_each].
  rewrite bind_ret_l. apply figure_run.
Qed.

End DetectorOutcomes.

(** ** The fitting loop and the end of [finder] (lines 91-129) *)

Section FitRuns.

Variable voigt_fit : list Qc -> list Qc -> Qc -> String.string + (Qc * Qc).
Variables x y : list Qc.

Lemma fit_step_eq (c j : Z) (acc : list Qc) :
  fit_step voigt_fit x y c acc j =
  match NumPy.getitem x c with
  | None => raise IndexError
  | Some q =>
      match voigt_fit (NumPy.slice x (c - j) (c + j))
                      (NumPy.slice y (c - j) (c + j)) q with
      | inl who =>
          (inl (Raised who),
           [Fit (NumPy.slice x (c - j) (c + j))
                (NumPy.slice y (c - j) (c + j)) q 0])
      | inr r =>
          (inr (acc ++ flat r),
           [Fit (NumPy.slice x (c - j) (c + j))
                (NumPy.slice y (c - j) (c + j)) q 0])
      end
  end.
Proof.
  unfold fit_step, item, fitting.
  destruct (NumPy.getitem x c) as [q|]; [|reflexivity].
  rewrite bind_ret_l.
  destruct (voigt_fit _ _ q) as [who|r]; reflexivity.
Qed.

Lemma job_loop_fail (js : list (Z * Z)) (acc : list Qc) (e : error) :
  (forall cj, In cj js -> NumPy.getitem x (fst cj) <> None) ->
  outcome (for_each js (job_step voigt_fit x y) acc) = inl e ->
  exists before x_range y_range q who,
    trace (for_each js (job_step voigt_fit x y) acc)
    = before ++ [Fit x_range y_range q 0]
    /\ voigt_fit x_range y_range q = inl who
    /\ e = Raised who
    /\ Forall (fun ev => exists r, produces voigt_fit ev r) before.
Proof.
  revert acc. induction js as [|[c j] r IH]; intros acc V H.
  - cbn in H. discriminate.
  - cbn [for_each] in *.
    change (job_step voigt_fit x y acc (c, j))
      with (fit_step voigt_fit x y c acc j) in *.
    rewrite fit_step_eq in *.
    destruct (NumPy.getitem x c) as [q|] eqn:G.
    2:{ exfalso. apply (V (c, j)); [now left|exact G]. }
    destruct (voigt_fit _ _ q) as [who|res] eqn:F.
    + cbn in H. injection H as <-.
      exists [], (NumPy.slice x (c - j) (c + j)),
             (NumPy.slice y (c - j) (c + j)), q, who.
      repeat split; [exact F|constructor].
    + unfold bind in *.
      specialize (IH (acc ++ flat res)).
      destruct (for_each r (job_step voigt_fit x y) (acc ++ flat res))
        as [o t] eqn:R.
      cbn [outcome trace fst snd] in *.
      destruct (IH (fun cj I => V cj (or_intror I)) H)
        as (before & xr & yr & q' & who & T & F' & E & P).
      exists (Fit (NumPy.slice x (c - j) (c + j))
                  (NumPy.slice y (c - j) (c + j)) q 0 :: before),
             xr, yr, q', who.
      repeat split; try assumption.
      * cbn [app]. now rewrite T.
      * constructor; [|exact P]. exists res. exact F.
Qed.

Lemma job_loop_all_fitted (js : list (Z * Z)) (acc fc : list Qc) :
  outcome (for_each js (job_step voigt_fit x y) acc) = inr fc ->
  forall c j, In (c, j) js ->
    exists q r, NumPy.getitem x c = Some q
      /\ voigt_fit (NumPy.slice x (c - j) (c + j))
                   (NumPy.slice y (c - j) (c + j)) q = inr r.
Proof.
  revert acc. induction js as [|[c0 j0] r IH]; intros acc H c j I.
  - contradiction.
  - cbn [for_each] in H.
    change (job_step voigt_fit x y acc (c0, j0))
      with (fit_step voigt_fit x y c0 acc j0) in H.
    rewrite fit_step_eq in H.
    destruct (NumPy.getitem x c0) as [q|] eqn:G; [|discriminate].
    destruct (voigt_fit _ _ q) as [who|res] eqn:F; [discriminate|].
    unfold bind in H.
    destruct (for_each r (job_step voigt_fit x y) (acc ++ flat res))
      as [o t] eqn:R.
    cbn [outcome fst] in H.
    destruct I as [E|I].
    + injection E as <- <-. now exists q, res.
    + apply (IH (acc ++ flat res)); [|exact I]. now rewrite R.
Qed.

Lemma refine_peaks_unfold (cands : list Z) (lo_lim hi_lim : Qc) (fig : Z) :
  refine_peaks voigt_fit x y cands lo_lim hi_lim fig =
  match fit_all voigt_fit x y cands with
  | (inl e, t) => (inl e, t)
  | (inr fc, t) =>
      (inr (dedupe fc),
       t ++ (if (fig =? 1)%Z
             then [Figure x y lo_lim hi_lim (dedupe fc)] else []))
  end.
Proof.
  unfold refine_peaks.
  destruct (fit_all voigt_fit x y cands) as [[e|fc] t]; cbn [bind];
    [reflexivity|].
  now rewrite figure_run.
Qed.

Lemma fit_trace_plain (cands : list Z) (ev : event) :
  In ev (trace (fit_all voigt_fit x y cands)) ->
  exists c w q,
    In c cands /\ In w widths /\ NumPy.getitem x c = Some q
    /\ ev = Fit (NumPy.slice x (c - w) (c + w))
                (NumPy.slice y (c - w) (c + w)) q 0.
Proof.
  intro H. rewrite fit_all_jobs in H.
  destruct (job_loop_trace _ _ _ _ _ _ H) as ([c w] & Hj & C).
  apply jobs_In in Hj. destruct Hj as [Hc Hw].
  unfold fit_call in C. cbn [fst snd] in C.
  destruct (NumPy.getitem x c) as [q|] eqn:G; [|discriminate].
  injection C as <-. now exists c, w, q.
Qed.

End FitRuns.

Section SliceContents.

Context {A : Type}.

Lemma bound_range (len i : Z) :
  (0 <= len)%Z -> (0 <= NumPy.bound len i <= len)%Z.
Proof.
  intro H. unfold NumPy.bound. destruct (Z.ltb_spec i 0); lia.
Qed.

Lemma slice_length (a : list A) (s e : Z) :
  length (NumPy.slice a s e)
  = Z.to_nat (NumPy.bound (Z.of_nat (length a)) e
              - NumPy.bound (Z.of_nat (length a)) s).
Proof.
  unfold NumPy.slice. rewrite length_firstn, length_skipn.
  pose proof (bound_range (Z.of_nat (length a)) s (Nat2Z.is_nonneg _)).
  pose proof (bound_range (Z.of_nat (length a)) e (Nat2Z.is_nonneg _)).
  lia.
Qed.

Lemma slice_nth (a : list A) (c w : Z) (k : nat) :
  (0 <= c - w)%Z -> (c + w <= Z.of_nat (length a))%Z ->
  (Z.of_nat k < 2 * w)%Z ->
  nth_error (NumPy.slice a (c - w) (c + w)) k
  = nth_error a (Z.to_nat (c - w) + k).
Proof.
  intros Hs He Hk. unfold NumPy.slice, NumPy.bound.
  destruct (Z.ltb_spec (c - w) 0); [lia|].
  destruct (Z.ltb_spec (c + w) 0); [lia|].
  rewrite !Z.min_l by lia.
  rewrite nth_error_firstn.
  destruct (Nat.ltb_spec k (Z.to_nat (c + w - (c - w)))); [|lia].
  apply nth_error_skipn.
Qed.

End SliceContents.

Section FinderExtras.

Variable find_peaks_cwt : list Qc -> list Z -> String.string + list Z.
Variable voigt_fit : list Qc -> list Qc -> Qc -> String.string + (Qc * Qc).

Lemma finder_cases (table : list (Qc * Qc)) (sens : Z)
    (lo_lim hi_lim : Qc) (fig : Z) :
  let x := map fst table in
  let y := map snd table in
  (exists e,
     outcome (detect find_peaks_cwt x y sens lo_lim hi_lim) = inl e
     /\ finder find_peaks_cwt voigt_fit table sens lo_lim hi_lim fig
        = (inl e, []))
  \/ (exists cands,
        outcome (detect find_peaks_cwt x y sens lo_lim hi_lim) = inr cands
        /\ finder find_peaks_cwt voigt_fit table sens lo_lim hi_lim fig
           = refine_peaks voigt_fit x y cands lo_lim hi_lim fig).
Proof.
  intros x y. unfold finder. fold x y.
  pose proof (detect_silent find_peaks_cwt x y sens lo_lim hi_lim) as S.
  destruct (detect find_peaks_cwt x y sens lo_lim hi_lim) as [[e|cands] t];
    cbn [trace snd] in S; subst t.
  - left. now exists e.
  - right. exists cands. split; [reflexivity|].
    change (@inr error (list Z) cands, @nil event) with (ret cands).
    now rewrite bind_ret_l.
Qed.

Lemma cands_valid (x y : list Qc) (sens : Z) (lo_lim hi_lim : Qc)
    (cands : list Z) :
  outcome (detect find_peaks_cwt x y sens lo_lim hi_lim) = inr cands ->
  forall c, In c cands -> NumPy.getitem x c <> None.
Proof.
  intros H c Hc.
  destruct (detect_run _ _ _ _ _ _ _ H) as (_ & fpp & _ & K).
  rewrite K in Hc. apply trim_incl in Hc. apply filter_In in Hc.
  destruct Hc as [_ W]. apply in_window_spec in W.
  destruct W as (q & G & _). congruence.
Qed.

Lemma jobs_valid (x y : list Qc) (sens : Z) (lo_lim hi_lim : Qc)
    (cands : list Z) :
  outcome (detect find_peaks_cwt x y sens lo_lim hi_lim) = inr cands ->
  forall cj, In cj (jobs cands) -> NumPy.getitem x (fst cj) <> None.
Proof.
  intros H [c w] I. apply jobs_In in I.
  exact (cands_valid _ _ _ _ _ _ H c (proj1 I)).
Qed.

(** X8. The two windows of every fit have the same number of samples:
    whatever the candidate and the half-width, [fitting] receives a
    q-window and an intensity window of equal length. *)
Theorem fit_windows_same_length (table : list (Qc * Qc)) (sens : Z)
    (lo_lim hi_lim : Qc) (fig : Z)
    (x_range y_range : list Qc) (q : Qc) (plot : Z) :
  In (Fit x_range y_range q plot)
     (trace (finder find_peaks_cwt voigt_fit table sens lo_lim hi_lim fig)) ->
  length x_range = length y_range.
Proof.
  intro H.
  destruct (finder_cases table sens lo_lim hi_lim fig)
    as [(e & _ & R)|(cands & _ & R)]; rewrite R in H.
  - contradiction.
  - apply refine_peaks_trace in H; [|reflexivity].
    destruct (fit_trace_plain _ _ _ _ _ H) as (c & w & q' & _ & _ & _ & E).
    injection E as -> -> _ _.
    now rewrite !slice_length, !length_map.
Qed.

(** X9. What [finder] shows and what it never does.  [fitting] is only
    ever called with [plot = 0], so no fit is plotted or reported.  A run
    that returns has made its fits and then, when [fig] is 1 and only
    then, shown one figure, which carries exactly the peaks returned; a
    run that fails shows no figure. *)
Theorem finder_events (table : list (Qc * Qc)) (sens : Z)
    (lo_lim hi_lim : Qc) (fig : Z) :
  let x := map fst table in
  let y := map snd table in
  let run := finder find_peaks_cwt voigt_fit table sens lo_lim hi_lim fig in
  (forall peaks, outcome run = inr peaks ->
     exists fits,
       Forall plain_fit fits
       /\ trace run
          = fits ++ (if (fig =? 1)%Z
                     then [Figure x y lo_lim hi_lim peaks] else []))
  /\ (forall e, outcome run = inl e -> Forall plain_fit (trace run)).
Proof.
  intros x y run.
  assert (P : forall cands,
            Forall plain_fit (trace (fit_all voigt_fit x y cands))).
  { intro cands. apply Forall_forall. intros ev H.
    destruct (fit_trace_plain _ _ _ _ _ H) as (c & w & q & _ & _ & _ & ->).
    now exists (NumPy.slice x (c - w) (c + w)),
               (NumPy.slice y (c - w) (c + w)), q. }
  destruct (finder_cases table sens lo_lim hi_lim fig)
    as [(e & _ & R)|(cands & _ & R)]; fold x y run in R; rewrite R.
  - split; [intros peaks H; discriminate|]. intros _ _. constructor.
  - rewrite refine_peaks_unfold. specialize (P cands).
    destruct (fit_all voigt_fit x y cands) as [[e|fc] t];
      cbn [outcome trace fst snd] in *.
    + split; [intros peaks H; discriminate|]. intros _ _. exact P.
    + split; [|intros e H; discriminate].
      intros peaks H. injection H as <-. now exists t.
Qed.

(** X10. The peaks that [finder] returns are strictly ascending, so no
    value occurs twice, and there are at most 14 of them per candidate
    of the detector. *)
Theorem finder_result_sorted (table : list (Qc * Qc)) (sens : Z)
    (lo_lim hi_lim : Qc) (fig : Z) (cands : list Z) (peaks : list Qc) :
  let x := map fst table in
  let y := map snd table in
  outcome (detect find_peaks_cwt x y sens lo_lim hi_lim) = inr cands ->
  outcome (finder find_peaks_cwt voigt_fit table sens lo_lim hi_lim fig)
    = inr peaks ->
  StronglySorted Qclt peaks
  /\ (length peaks <= 14 * length cands)%nat.
Proof.
  intros x y Hd Hr.
  destruct (finder_cases table sens lo_lim hi_lim fig)
    as [(e & D & _)|(cands' & D & R)]; fold x y in D; [congruence|].
  assert (cands' = cands) by congruence. subst cands'.
  rewrite R in Hr.
  destruct (refine_peaks_run _ _ _ _ _ _ _ _ Hr) as (fc & Hf & -> & _).
  split; [apply unique_ascending|].
  rewrite fit_all_jobs in Hf.
  destruct (job_loop_ok _ _ _ _ _ _ Hf) as (results & E & C & P).
  assert (L : length results = (7 * length cands)%nat).
  { rewrite <- (Forall2_length P), <- (length_map Some), C, length_map.
    apply jobs_length. }
  assert (Lf : length fc = (2 * length results)%nat).
  { rewrite E. cbn [NumPy.zeros0 app]. clear.
    induction results as [|r rs IH]; [reflexivity|].
    cbn [flat_map flat app length]. rewrite IH. lia. }
  rewrite dedupe_spec. unfold spec_dedupe.
  pose proof (unique_length (map (spec_emit fc) fc)) as U.
  rewrite length_map in U. lia.
Qed.

(** X11. [finder] stops at the first fit that raises: the run ends with
    the exception of that fit, the failing call is the last event, every
    fit before it returned, and no later candidate or half-width is
    tried. *)
Theorem finder_stops_at_first_failing_fit (table : list (Qc * Qc))
    (sens : Z) (lo_lim hi_lim : Qc) (fig : Z) (cands : list Z) (e : error) :
  let x := map fst table in
  let y := map snd table in
  let run := finder find_peaks_cwt voigt_fit table sens lo_lim hi_lim fig in
  outcome (detect find_peaks_cwt x y sens lo_lim hi_lim) = inr cands ->
  outcome run = inl e ->
  exists before x_range y_range q who,
    trace run = before ++ [Fit x_range y_range q 0]
    /\ voigt_fit x_range y_range q = inl who
    /\ e = Raised who
    /\ Forall (fun ev => exists r, produces voigt_fit ev r) before.
Proof.
  intros x y run Hd Hr.
  destruct (finder_cases table sens lo_lim hi_lim fig)
    as [(e' & D & _)|(cands' & D & R)]; fold x y in D; [congruence|].
  assert (cands' = cands) by congruence. subst cands'.
  fold x y run in R. rewrite R in *. rewrite refine_peaks_unfold in *.
  pose proof (job_loop_fail voigt_fit x y (jobs cands) NumPy.zeros0 e
                (jobs_valid _ _ _ _ _ _ Hd)) as F.
  rewrite <- fit_all_jobs in F.
  destruct (fit_all voigt_fit x y cands) as [[e'|fc] t];
    cbn [outcome trace fst snd] in *; [|discriminate].
  apply F. exact Hr.
Qed.

(** X13. The window of a candidate away from the edges holds the [2 w]
    samples [x[c-w]] to [x[c+w-1]]: the candidate itself is the sample at
    offset [w], with [w] samples before it and [w - 1] after it. *)
Theorem window_samples (x y : list Qc) (c w : Z) (ev : event) :
  (0 < w)%Z -> (0 <= c - w)%Z -> (c + w <= Z.of_nat (length x))%Z ->
  fit_call x y c w = Some ev ->
  exists q,
    ev = Fit (NumPy.slice x (c - w) (c + w))
             (NumPy.slice y (c - w) (c + w)) q 0
    /\ length (NumPy.slice x (c - w) (c + w)) = Z.to_nat (2 * w)
    /\ nth_error (NumPy.slice x (c - w) (c + w)) (Z.to_nat w) = Some q
    /\ forall k, (Z.of_nat k < 2 * w)%Z ->
         nth_error (NumPy.slice x (c - w) (c + w)) k
         = nth_error x (Z.to_nat (c - w) + k).
Proof.
  intros Hw Hs He C. unfold fit_call in C.
  destruct (NumPy.getitem x c) as [q|] eqn:G; [|discriminate].
  injection C as <-. exists q. split; [reflexivity|].
  split; [apply slice_inside; lia|]. split.
  - rewrite slice_nth by lia.
    unfold NumPy.getitem in G.
    destruct (Z.ltb_spec c 0); [lia|].
    destruct (Z.leb_spec 0 c); [|lia].
    destruct (Z.ltb_spec c (Z.of_nat (length x))); [|lia].
    cbn [andb] in G. rewrite <- G. f_equal. lia.
  - intros k Hk. now apply slice_nth.
Qed.

End FinderExtras.

(** ** The body of [fitting] (lines 37-55) *)

Section FittingBodyRuns.

Variable find_peaks_cwt : list Qc -> list Z -> String.string + list Z.
Variable lin_guess : list Qc -> list Qc -> String.string + (Qc * Qc).

Lemma fold_maximum (r : list Qc) (v : Qc) :
  let m := fold_left NumPy.maximum r v in
  In m (v :: r) /\ Forall (fun a => a <= m) (v :: r).
Proof.
  revert v. induction r as [|u r IH]; intro v; cbn [fold_left].
  - split; [now left|]. constructor; [apply Qcle_refl|constructor].
  - destruct (IH (NumPy.maximum v u)) as [I F].
    inversion F as [|? ? L Fr]; subst.
    unfold NumPy.maximum in *.
    destruct (NumPy.leb v u) eqn:E.
    + split; [destruct I as [I|I]; [right; now left|now do 2 right]|].
      constructor; [qc_order|]. constructor; assumption.
    + split; [destruct I as [I|I]; [now left|now do 2 right]|].
      constructor; [assumption|]. constructor; [qc_order|assumption].
Qed.

Lemma fold_minimum (r : list Qc) (v : Qc) :
  let m := fold_left NumPy.minimum r v in
  In m (v :: r) /\ Forall (fun a => m <= a) (v :: r).
Proof.
  revert v. induction r as [|u r IH]; intro v; cbn [fold_left].
  - split; [now left|]. constructor; [apply Qcle_refl|constructor].
  - destruct (IH (NumPy.minimum v u)) as [I F].
    inversion F as [|? ? L Fr]; subst.
    unfold NumPy.minimum in *.
    destruct (NumPy.leb v u) eqn:E.
    + split; [destruct I as [I|I]; [now left|now do 2 right]|].
      constructor; [assumption|]. constructor; [qc_order|assumption].
    + split; [destruct I as [I|I]; [right; now left|now do 2 right]|].
      constructor; [qc_order|]. constructor; assumption.
Qed.

Lemma spread_spec (a : list Qc) (s : Qc) :
  spread a = inr s ->
  exists lo hi, In lo a /\ In hi a
    /\ Forall (fun v => lo <= v /\ v <= hi) a
    /\ s = hi - lo.
Proof.
  unfold spread. destruct a as [|v r]; [discriminate|].
  cbn [NumPy.amax NumPy.amin]. intro H. injection H as <-.
  destruct (fold_maximum r v) as [Imax Fmax].
  destruct (fold_minimum r v) as [Imin Fmin].
  exists (fold_left NumPy.minimum r v), (fold_left NumPy.maximum r v).
  repeat split; try assumption.
  rewrite Forall_forall in *. intros u Hu. split; auto.
Qed.

Lemma quotient_nonneg (lo hi k : Qc) :
  0 < k -> lo <= hi -> 0 <= (hi - lo) / k.
Proof.
  intros K L. apply (Qcmult_lt_0_le_reg_r _ _ k K).
  rewrite Qcmult_0_l, Qcmult_comm, Qcmult_div_r.
  - qc_lra.
  - intro E. rewrite E in K. discriminate.
Qed.

(** X14. The starting point of every fit: when [fitting] reaches the
    least-squares fit, the Voigt centre starts at [approx_centre], the
    width at a fifth of the q-extent of the window and the amplitude at a
    fiftieth of its intensity range, both taken between samples of the
    window and never negative. *)
Theorem initial_parameters_bounds (x y : list Qc) (approx_centre : Qc)
    (pars : parameters) :
  initial_parameters lin_guess x y approx_centre = inr pars ->
  V_center pars = approx_centre
  /\ 0 <= V_sigma pars
  /\ 0 <= V_amplitude pars
  /\ (exists lo hi, In lo x /\ In hi x
        /\ Forall (fun v => lo <= v /\ v <= hi) x
        /\ V_sigma pars = (hi - lo) / NumPy.lit 5 1)
  /\ (exists lo hi, In lo y /\ In hi y
        /\ Forall (fun v => lo <= v /\ v <= hi) y
        /\ V_amplitude pars = (hi - lo) / NumPy.lit 50 1).
Proof.
  unfold initial_parameters.
  destruct (lin_guess y x) as [who|[slope intercept]]; [discriminate|].
  destruct (spread x) as [who|sx] eqn:Sx; [discriminate|].
  destruct (spread y) as [who|sy] eqn:Sy; [discriminate|].
  intro H. injection H as <-. cbn [V_center V_sigma V_amplitude].
  destruct (spread_spec x sx Sx) as (lx & hx & Ilx & Ihx & Fx & ->).
  destruct (spread_spec y sy Sy) as (ly & hy & Ily & Ihy & Fy & ->).
  assert (Lx : lx <= hx)
    by (rewrite Forall_forall in Fx; exact (proj2 (Fx lx Ilx))).
  assert (Ly : ly <= hy)
    by (rewrite Forall_forall in Fy; exact (proj2 (Fy ly Ily))).
  split; [reflexivity|].
  split; [now apply quotient_nonneg|].
  split; [now apply quotient_nonneg|].
  split; [now exists lx, hx|now exists ly, hy].
Qed.

(** X15. [fitting] cannot fit an empty window: it raises before the
    least-squares fit is reached (in the background guess of line 38 or,
    with ValueError, in [np.max] of line 50), after the one event of the
    call, and whatever the least-squares fit would do. *)
Theorem fitting_empty_window_raises (y : list Qc) (approx_centre : Qc)
    (plot : Z) :
  exists who,
    forall least_squares,
      fitting (lmfit_fit lin_guess least_squares) [] y approx_centre plot
      = (inl (Raised who), [Fit [] y approx_centre plot]).
Proof.
  unfold fitting, lmfit_fit, initial_parameters.
  destruct (lin_guess y []) as [who|[slope intercept]].
  - exists who. reflexivity.
  - exists "ValueError"%string. reflexivity.
Qed.

Lemma lmfit_empty (least_squares :
    list Qc -> parameters -> list Qc -> String.string + (parameters * Qc))
    (y : list Qc) (q : Qc) (r : Qc * Qc) :
  lmfit_fit lin_guess least_squares [] y q <> inr r.
Proof.
  unfold lmfit_fit, initial_parameters.
  destruct (lin_guess y []) as [who|[slope intercept]]; discriminate.
Qed.

(** X16. A candidate within the first nine samples makes [finder] fail: on
    a curve of at least 18 samples the window of half-width 9 (or a
    smaller one) of such a candidate is the empty slice, [fitting] raises
    on it, and the run ends with that exception instead of peaks. *)
Theorem finder_fails_near_curve_start
    (least_squares :
       list Qc -> parameters -> list Qc -> String.string + (parameters * Qc))
    (table : list (Qc * Qc)) (sens : Z) (lo_lim hi_lim : Qc) (fig : Z)
    (cands : list Z) (c : Z) :
  let x := map fst table in
  let y := map snd table in
  outcome (detect find_peaks_cwt x y sens lo_lim hi_lim) = inr cands ->
  In c cands -> (0 <= c < 9)%Z -> (18 <= length table)%nat ->
  exists who,
    outcome (finder find_peaks_cwt (lmfit_fit lin_guess least_squares)
                    table sens lo_lim hi_lim fig)
    = inl (Raised who).
Proof.
  intros x y Hd Hc Hr Hl.
  set (vf := lmfit_fit lin_guess least_squares).
  destruct (finder_cases find_peaks_cwt vf table sens lo_lim hi_lim fig)
    as [(e' & D & _)|(cands' & D & R)]; fold x y in D; [congruence|].
  assert (cands' = cands) by congruence. subst cands'.
  fold x y in R. rewrite R, refine_peaks_unfold.
  pose proof (job_loop_fail vf x y (jobs cands) NumPy.zeros0) as F.
  pose proof (job_loop_all_fitted vf x y (jobs cands) NumPy.zeros0) as A.
  rewrite <- fit_all_jobs in F, A.
  destruct (fit_all vf x y cands) as [[e|fc] t];
    cbn [outcome trace fst snd] in *.
  - destruct (F e (jobs_valid _ _ _ _ _ _ _ Hd) eq_refl)
      as (_ & _ & _ & _ & who & _ & _ & -> & _).
    now exists who.
  - exfalso.
    destruct (A fc eq_refl c 9%Z) as (q & r & _ & E).
    { apply jobs_In. split; [exact Hc|]. vm_compute. tauto. }
    rewrite (slice_empty_at_start x c 9) in E.
    + exact (lmfit_empty least_squares _ _ _ E).
    + lia.
    + lia.
    + unfold x. rewrite length_map. lia.
Qed.

End FittingBodyRuns.

(** ** Sample runs for the further properties *)

Section ExtraRuns.

Import Sample.

Lemma detector_keeps_order_witness :
  outcome (detect (cwt_const [0; 18; 10; 10]%Z) x y 8
                  (NumPy.lit (-1) 10) hi_lim) = inr [18; 10; 10]%Z
  /\ exists first_pass_peaks k,
       cwt_const [0; 18; 10; 10]%Z y (NumPy.range 1 8)
         = inr first_pass_peaks
       /\ filter (in_window x (NumPy.lit (-1) 10) hi_lim) first_pass_peaks
          = repeat 0%Z k ++ [18; 10; 10]%Z
       /\ hd_error [18; 10; 10]%Z <> Some 0%Z.
Proof.
  assert (H : outcome (detect (cwt_const [0; 18; 10; 10]%Z) x y 8
                              (NumPy.lit (-1) 10) hi_lim)
              = inr [18; 10; 10]%Z) by (vm_compute; reflexivity).
  split; [exact H|].
  exact (detector_keeps_order _ _ _ _ _ _ _ H).
Defined.

Lemma detector_outcomes_witness :
  cwt_const [10; 25]%Z y (NumPy.range 1 8) = inr [10; 25]%Z
  /\ Exists (fun p => ~ valid_index (length x) p) [10; 25]%Z
  /\ detect (cwt_const [10; 25]%Z) x y 8 lo_lim hi_lim = (inl IndexError, [])
  /\ detect cwt_fails x y 8 lo_lim hi_lim
     = (inl (Raised "ValueError"%string), []).
Proof.
  assert (H1 : cwt_const [10; 25]%Z y (NumPy.range 1 8) = inr [10; 25]%Z)
    by reflexivity.
  assert (H2 : Exists (fun p => ~ valid_index (length x) p) [10; 25]%Z).
  { right. left. unfold valid_index. vm_compute. intros [_ H]. discriminate. }
  split; [exact H1|]. split; [exact H2|]. split.
  - exact (proj1 (proj2 (detector_outcomes (cwt_const [10; 25]%Z)
                           x y 8 lo_lim hi_lim)) _ H1 H2).
  - exact (proj1 (detector_outcomes cwt_fails x y 8 lo_lim hi_lim)
                 _ eq_refl).
Defined.

Lemma inverted_limits_no_peaks_witness :
  lo_lim <= hi_lim
  /\ outcome (detect (cwt_const [10; 18]%Z) x y 8 hi_lim lo_lim) = inr []
  /\ finder (cwt_const [10; 18]%Z) (fit_echo redchi) table 8 hi_lim lo_lim 0
     = (inr [], []).
Proof.
  assert (L : lo_lim <= hi_lim) by (vm_compute; discriminate).
  assert (H : outcome (detect (cwt_const [10; 18]%Z) x y 8 hi_lim lo_lim)
              = inr []) by (vm_compute; reflexivity).
  split; [exact L|]. split; [exact H|].
  exact (proj2 (inverted_limits_no_peaks
                  (cwt_const [10; 18]%Z) (fit_echo redchi) table 8
                  hi_lim lo_lim 0 [] L H)).
Defined.

Lemma fit_windows_same_length_witness :
  exists x_range y_range q,
    In (Fit x_range y_range q 0) (trace (run [18]%Z 0))
    /\ length x_range = 5%nat
    /\ length x_range = length y_range.
Proof.
  destruct (trace (run [18]%Z 0)) as [|[xr yr q p|? ? ? ?|? ? ? ? ?] t] eqn:T;
    try (vm_compute in T; discriminate).
  assert (P : p = 0%Z /\ length xr = 5%nat).
  { vm_compute in T. injection T as <- _ _ <- _. split; reflexivity. }
  destruct P as [-> L].
  assert (I : In (Fit xr yr q 0) (trace (run [18]%Z 0)))
    by (rewrite T; left; reflexivity).
  exists xr, yr, q. split; [now left|]. split; [exact L|].
  exact (fit_windows_same_length
           (cwt_const [18]%Z) (fit_echo redchi) table 8 lo_lim hi_lim 0
           xr yr q 0 I).
Defined.

Lemma finder_events_witness :
  outcome (run [10]%Z 1) = inr [NumPy.lit 1 1; NumPy.lit 7 1]
  /\ exists fits,
       Forall plain_fit fits
       /\ trace (run [10]%Z 1)
          = fits ++ [Figure x y lo_lim hi_lim
                            [NumPy.lit 1 1; NumPy.lit 7 1]].
Proof.
  assert (H : outcome (run [10]%Z 1) = inr [NumPy.lit 1 1; NumPy.lit 7 1])
    by (apply values_of_inr; vm_compute; reflexivity).
  split; [exact H|].
  exact (proj1 (finder_events (cwt_const [10]%Z) (fit_echo redchi)
                              table 8 lo_lim hi_lim 1) _ H).
Defined.

Lemma finder_result_sorted_witness :
  outcome (detect (cwt_const [10; 18]%Z) x y 8 lo_lim hi_lim)
    = inr [10; 18]%Z
  /\ outcome (run [10; 18]%Z 0)
     = inr [NumPy.lit 1 1; NumPy.lit 9 5; NumPy.lit 7 1]
  /\ StronglySorted Qclt [NumPy.lit 1 1; NumPy.lit 9 5; NumPy.lit 7 1].
Proof.
  assert (H1 : outcome (detect (cwt_const [10; 18]%Z) x y 8 lo_lim hi_lim)
               = inr [10; 18]%Z) by (vm_compute; reflexivity).
  assert (H2 : outcome (run [10; 18]%Z 0)
               = inr [NumPy.lit 1 1; NumPy.lit 9 5; NumPy.lit 7 1])
    by (apply values_of_inr; vm_compute; reflexivity).
  split; [exact H1|]. split; [exact H2|].
  exact (proj1 (finder_result_sorted
                  (cwt_const [10; 18]%Z) (fit_echo redchi) table 8
                  lo_lim hi_lim 0 _ _ H1 H2)).
Defined.

Lemma finder_stops_at_first_failing_fit_witness :
  outcome (detect (cwt_const [4; 10]%Z) x y 8 lo_lim hi_lim)
    = inr [4; 10]%Z
  /\ outcome (finder (cwt_const [4; 10]%Z) (fit_strict redchi) table 8
                     lo_lim hi_lim 0)
     = inl (Raised "ValueError"%string)
  /\ exists before x_range y_range q who,
       trace (finder (cwt_const [4; 10]%Z) (fit_strict redchi) table 8
                     lo_lim hi_lim 0)
       = before ++ [Fit x_range y_range q 0]
       /\ length before = 2%nat
       /\ fit_strict redchi x_range y_range q = inl who.
Proof.
  assert (H1 : outcome (detect (cwt_const [4; 10]%Z) x y 8 lo_lim hi_lim)
               = inr [4; 10]%Z) by (vm_compute; reflexivity).
  assert (H2 : outcome (finder (cwt_const [4; 10]%Z) (fit_strict redchi)
                               table 8 lo_lim hi_lim 0)
               = inl (Raised "ValueError"%string))
    by (vm_compute; reflexivity).
  split; [exact H1|]. split; [exact H2|].
  destruct (finder_stops_at_first_failing_fit
              (cwt_const [4; 10]%Z) (fit_strict redchi) table 8
              lo_lim hi_lim 0 _ _ H1 H2)
    as (before & xr & yr & q & who & T & F & _ & _).
  exists before, xr, yr, q, who. split; [exact T|]. split; [|exact F].
  apply (f_equal (@length event)) in T.
  rewrite length_app in T. cbn [length] in T.
  assert (L : length (trace (finder (cwt_const [4; 10]%Z)
                                    (fit_strict redchi) table 8
                                    lo_lim hi_lim 0)) = 3%nat)
    by (vm_compute; reflexivity).
  rewrite L in T. lia.
Defined.

Lemma window_samples_witness :
  (0 < 3)%Z /\ (0 <= 10 - 3)%Z /\ (10 + 3 <= Z.of_nat (length x))%Z
  /\ exists ev q,
       fit_call x y 10 3 = Some ev
       /\ ev = Fit (NumPy.slice x (10 - 3) (10 + 3))
                   (NumPy.slice y (10 - 3) (10 + 3)) q 0
       /\ length (NumPy.slice x (10 - 3) (10 + 3)) = 6%nat
       /\ nth_error (NumPy.slice x (10 - 3) (10 + 3)) 3 = Some q.
Proof.
  assert (H1 : (0 < 3)%Z) by lia.
  assert (H2 : (0 <= 10 - 3)%Z) by lia.
  assert (H3 : (10 + 3 <= Z.of_nat (length x))%Z)
    by (vm_compute; discriminate).
  split; [exact H1|]. split; [exact H2|]. split; [exact H3|].
  destruct (fit_call x y 10 3) as [ev|] eqn:C;
    [|vm_compute in C; discriminate].
  destruct (window_samples x y 10 3 ev H1 H2 H3 C) as (q & E & L & N & _).
  exists ev, q. repeat split; assumption.
Defined.

Lemma initial_parameters_bounds_witness :
  exists pars,
    initial_parameters guess_flat
      [NumPy.lit 1 1; NumPy.lit 3 1; NumPy.lit 2 1]
      [NumPy.lit 5 1; NumPy.lit 4 1; NumPy.lit 9 1] (NumPy.lit 2 1)
    = inr pars
    /\ V_center pars = NumPy.lit 2 1
    /\ 0 <= V_sigma pars
    /\ 0 <= V_amplitude pars.
Proof.
  destruct (initial_parameters guess_flat
              [NumPy.lit 1 1; NumPy.lit 3 1; NumPy.lit 2 1]
              [NumPy.lit 5 1; NumPy.lit 4 1; NumPy.lit 9 1] (NumPy.lit 2 1))
    as [who|pars] eqn:E; [vm_compute in E; discriminate|].
  exists pars. split; [reflexivity|].
  destruct (initial_parameters_bounds _ _ _ _ _ E) as (C & S & A & _).
  repeat split; assumption.
Defined.

Lemma finder_fails_near_curve_start_witness :
  outcome (detect (cwt_const [5; 10]%Z) x y 8 lo_lim hi_lim)
    = inr [5; 10]%Z
  /\ In 5%Z [5; 10]%Z /\ (0 <= 5 < 9)%Z /\ (18 <= length table)%nat
  /\ exists who,
       outcome (finder (cwt_const [5; 10]%Z)
                       (lmfit_fit guess_flat solver_echo)
                       table 8 lo_lim hi_lim 0)
       = inl (Raised who).
Proof.
  assert (H1 : outcome (detect (cwt_const [5; 10]%Z) x y 8 lo_lim hi_lim)
               = inr [5; 10]%Z) by (vm_compute; reflexivity).
  assert (H2 : In 5%Z [5; 10]%Z) by (left; reflexivity).
  assert (H3 : (0 <= 5 < 9)%Z) by lia.
  assert (H4 : (18 <= length table)%nat) by (vm_compute; lia).
  split; [exact H1|]. split; [exact H2|]. split; [exact H3|].
  split; [exact H4|].
  exact (finder_fails_near_curve_start
           (cwt_const [5; 10]%Z) guess_flat solver_echo table 8
           lo_lim hi_lim 0 _ _ H1 H2 H3 H4).
Defined.

End ExtraRuns.

(** * Lines 104-118 over any arithmetic *)

Section AnyArithmetic.

Context {F : Type} (A : arithmetic F).

Lemma any_where_take_from (pre l : list F) (v : F) :
  Numeric.take A (pre ++ l)
    (Numeric.where_lt_from A (length pre) (Numeric.abs_diff A l v) (n_tol A))
  = filter (Numeric.near A v) l.
Proof.
  revert pre. induction l as [|u r IH]; intro pre; [reflexivity|].
  cbn [Numeric.abs_diff map Numeric.where_lt_from filter].
  fold (Numeric.abs_diff A r v). fold (Numeric.near A v u).
  specialize (IH (pre ++ [u])).
  rewrite <- app_assoc, length_app, Nat.add_1_r in IH. cbn [app] in IH.
  destruct (Numeric.near A v u); [|exact IH].
  cbn [Numeric.take map]. rewrite nth_middle. f_equal. exact IH.
Qed.

Lemma any_where_take (l : list F) (v : F) :
  Numeric.take A l (Numeric.where_lt A (Numeric.abs_diff A l v) (n_tol A))
  = Numeric.cluster A l v.
Proof. exact (any_where_take_from [] l v). Qed.

Lemma any_step (fc tp : list F) (i : nat) :
  Numeric.dedupe_step A fc tp i
  = tp ++ Numeric.emit A fc (nth i fc (n_zero A)).
Proof.
  unfold Numeric.dedupe_step, Numeric.emit.
  set (c := nth i fc (n_zero A)).
  set (degen := Numeric.where_lt A (Numeric.abs_diff A fc c) (n_tol A)).
  assert (L : length degen = length (Numeric.cluster A fc c)).
  { rewrite <- any_where_take. unfold Numeric.take.
    now rewrite length_map. }
  rewrite L. unfold degen. rewrite any_where_take.
  destruct (Nat.eqb (length (Numeric.cluster A fc c)) 1); [reflexivity|].
  destruct (Nat.ltb 1 (length (Numeric.cluster A fc c))); [reflexivity|].
  now rewrite app_nil_r.
Qed.

Lemma any_pass (fc : list F) :
  Numeric.degenerate_pass A fc = flat_map (Numeric.emit A fc) fc.
Proof.
  unfold Numeric.degenerate_pass.
  assert (G : forall idx acc,
            fold_left (Numeric.dedupe_step A fc) idx acc
            = acc ++ flat_map
                       (fun i => Numeric.emit A fc (nth i fc (n_zero A)))
                       idx).
  { induction idx as [|i r IH]; intro acc; cbn [fold_left flat_map].
    - now rewrite app_nil_r.
    - now rewrite IH, any_step, <- app_assoc. }
  rewrite G. cbn [app]. rewrite !flat_map_concat_map. f_equal.
  apply map_nth_seq.
Qed.

Lemma any_insert_perm (v : F) (s : list F) :
  Permutation (Numeric.insert A v s) (v :: s).
Proof.
  induction s as [|u r IH]; cbn [Numeric.insert]; [reflexivity|].
  destruct (n_le A v u); [reflexivity|].
  rewrite IH. apply perm_swap.
Qed.

Lemma any_sort_perm (a : list F) : Permutation (Numeric.sort A a) a.
Proof.
  induction a as [|v r IH]; cbn [Numeric.sort fold_right]; [reflexivity|].
  fold (Numeric.sort A r). rewrite any_insert_perm. now constructor.
Qed.

Section Ordered.

Variable vals : list F.
Hypothesis O : Numeric.ordered_on A vals.

Lemma any_insert_comm (a b : F) (s : list F) :
  In a vals -> In b vals -> incl s vals ->
  Numeric.insert A a (Numeric.insert A b s)
  = Numeric.insert A b (Numeric.insert A a s).
Proof.
  intros Ha Hb. induction s as [|u r IH]; intro I.
  - cbn [Numeric.insert].
    destruct (n_le A a b) eqn:E1, (n_le A b a) eqn:E2; try reflexivity.
    + now rewrite (Numeric.le_antisym A vals O a b Ha Hb E1 E2).
    + destruct (Numeric.le_total A vals O a b Ha Hb); congruence.
  - assert (Hu : In u vals) by (apply I; now left).
    assert (I' : incl r vals) by (intros z Hz; apply I; now right).
    cbn [Numeric.insert].
    destruct (n_le A b u) eqn:Eb, (n_le A a u) eqn:Ea;
      cbn [Numeric.insert]; rewrite ?Eb, ?Ea.
    + destruct (n_le A a b) eqn:E1, (n_le A b a) eqn:E2;
        rewrite ?Ea, ?Eb; try reflexivity.
      * now rewrite (Numeric.le_antisym A vals O a b Ha Hb E1 E2).
      * destruct (Numeric.le_total A vals O a b Ha Hb); congruence.
    + destruct (n_le A a b) eqn:E1; [|reflexivity].
      pose proof (Numeric.le_trans A vals O a b u Ha Hb Hu E1 Eb).
      congruence.
    + destruct (n_le A b a) eqn:E1; [|reflexivity].
      pose proof (Numeric.le_trans A vals O b a u Hb Ha Hu E1 Ea).
      congruence.
    + now rewrite IH.
Qed.

Lemma any_sort_incl (l : list F) : incl l vals -> incl (Numeric.sort A l) vals.
Proof.
  intros I z Hz. apply I.
  exact (Permutation_in z (any_sort_perm l) Hz).
Qed.

Lemma any_sort_permutation (l l' : list F) :
  Permutation l l' -> incl l vals ->
  Numeric.sort A l = Numeric.sort A l'.
Proof.
  induction 1 as [|v l l' P IH|v w l|l l' l'' P1 IH1 P2 IH2]; intro I.
  - reflexivity.
  - cbn [Numeric.sort fold_right]. fold (Numeric.sort A l).
    fold (Numeric.sort A l'). rewrite IH; [reflexivity|].
    intros z Hz. apply I. now right.
  - cbn [Numeric.sort fold_right]. fold (Numeric.sort A l).
    apply any_insert_comm.
    + apply I. now left.
    + apply I. right. now left.
    + apply any_sort_incl. intros z Hz. apply I. now do 2 right.
  - rewrite IH1 by assumption. apply IH2.
    intros z Hz. apply I. exact (Permutation_in z (Permutation_sym P1) Hz).
Qed.











End Ordered.

Lemma any_emit_single (l : list F) (c : F) :
  NoDup l -> In c l -> Numeric.near A c c = true ->
  (forall v, In v l -> v <> c -> Numeric.near A c v = false) ->
  Numeric.emit A l c = [c].
Proof.
  intros N Hc Self Far. unfold Numeric.emit, Numeric.cluster.
  now rewrite (filter_only (Numeric.near A c) l c N Hc Self Far).
Qed.

Lemma flat_map_single {B : Type} (f : B -> list B) (l : list B) :
  (forall c, In c l -> f c = [c]) -> flat_map f l = l.
Proof.
  induction l as [|c r IH]; intro H; [reflexivity|].
  cbn [flat_map]. rewrite (H c) by now left.
  cbn [app]. f_equal. apply IH. intros. apply H. now right.
Qed.

Lemma any_emit_permutation (l l' : list F) (c : F) :
  Permutation l l' ->
  n_mean A (Numeric.cluster A l c) = n_mean A (Numeric.cluster A l' c) ->
  Numeric.emit A l c = Numeric.emit A l' c.
Proof.
  intros P M. unfold Numeric.emit.
  pose proof (filter_permutation (Numeric.near A c) l l' P) as Pc.
  fold (Numeric.cluster A l c) in Pc. fold (Numeric.cluster A l' c) in Pc.
  rewrite <- (Permutation_length Pc), <- M.
  destruct (Nat.eqb_spec (length (Numeric.cluster A l c)) 1) as [E|E];
    [|reflexivity].
  destruct (Numeric.cluster A l c) as [|u [|w r]]; try discriminate.
  symmetry. now apply Permutation_length_1_inv.
Qed.

End AnyArithmetic.

(** ** Idempotence and the order of the input (sections 5 and 8) *)

Section AnyArithmeticClaims.

Context {F : Type} (A : arithmetic F).

(** C9, amended. For a permuted input every centre has the same cluster,
    reordered; when [np.mean] returns the same value for each cluster in
    the two orders (and the emitted values hold no NaN and not both
    zeros), [dedupe] returns the same output sequence for both. *)
Theorem dedupe_order_up_to_mean (centers centers' : list F) :
  Permutation centers centers' ->
  Numeric.ordered_on A (Numeric.degenerate_pass A centers) ->
  (forall c, In c centers ->
     n_mean A (Numeric.cluster A centers c)
     = n_mean A (Numeric.cluster A centers' c)) ->
  (forall c, Permutation (Numeric.cluster A centers c)
                         (Numeric.cluster A centers' c))
  /\ Numeric.dedupe A centers = Numeric.dedupe A centers'.
Proof.
  intros P O M. split; [intro c; now apply filter_permutation|].
  unfold Numeric.dedupe, Numeric.unique. f_equal.
  apply (any_sort_permutation A _ O); [|apply incl_refl].
  rewrite !any_pass.
  transitivity (flat_map (Numeric.emit A centers') centers).
  - rewrite !flat_map_concat_map.
    rewrite (map_ext_in (Numeric.emit A centers)
                        (Numeric.emit A centers')); [reflexivity|].
    intros c Hc. apply any_emit_permutation; [exact P|now apply M].
  - now apply Permutation_flat_map.
Qed.


(** X3. Centres that are distinct and already separated pass through:
    when no value is repeated in the input, no two input centres test as
    within 0.01 of each other and each tests as within 0.01 of itself,
    the loop of lines 105-115 emits every centre unchanged, so [dedupe]
    returns [np.unique] of its input. *)
Theorem distinct_separated_pass_through (centers : list F) :
  NoDup centers ->
  (forall c, In c centers -> Numeric.near A c c = true) ->
  (forall u v, In u centers -> In v centers -> u <> v ->
               Numeric.near A u v = false) ->
  Numeric.degenerate_pass A centers = centers
  /\ Numeric.dedupe A centers = Numeric.unique A centers.
Proof.
  intros N Self Far.
  assert (E : Numeric.degenerate_pass A centers = centers).
  { rewrite any_pass. apply flat_map_single.
    intros c Hc. apply any_emit_single; auto. }
  split; [exact E|]. unfold Numeric.dedupe. now rewrite E.
Qed.

End AnyArithmeticClaims.

(** ** The two arithmetics *)

Section ExactArithmetic.

Lemma exact_insert (v : Qc) (s : list Qc) :
  Numeric.insert exact v s = NumPy.insert v s.
Proof.
  induction s as [|u r IH]; [reflexivity|].
  cbn [Numeric.insert NumPy.insert]. now rewrite IH.
Qed.

Lemma exact_sort (l : list Qc) : Numeric.sort exact l = NumPy.sort l.
Proof.
  induction l as [|v r IH]; [reflexivity|].
  cbn [Numeric.sort NumPy.sort fold_right].
  fold (Numeric.sort exact r). fold (NumPy.sort r).
  now rewrite IH, exact_insert.
Qed.

Lemma exact_squeeze_from (prev : Qc) (s : list Qc) :
  prev :: Numeric.squeeze_from exact prev s = NumPy.squeeze (prev :: s).
Proof.
  revert prev. induction s as [|u r IH]; intro prev; [reflexivity|].
  rewrite squeeze_cons. cbn [Numeric.squeeze_from]. cbn [n_eq exact].
  destruct (NumPy.eqb u prev) eqn:E.
  - apply eqb_eq in E. subst u.
    rewrite (proj2 (eqb_eq prev prev) eq_refl). apply IH.
  - assert (E' : NumPy.eqb prev u = false).
    { apply eqb_neq. apply eqb_neq in E. congruence. }
    rewrite E'. f_equal. apply IH.
Qed.

Lemma exact_unique (l : list Qc) : Numeric.unique exact l = NumPy.unique l.
Proof.
  unfold Numeric.unique, NumPy.unique. rewrite exact_sort.
  destruct (NumPy.sort l) as [|u r]; [reflexivity|].
  apply exact_squeeze_from.
Qed.

Lemma exact_emit (l : list Qc) (c : Qc) :
  In c l -> Numeric.emit exact l c = [spec_emit l c].
Proof.
  intro H. unfold Numeric.emit, spec_emit.
  change (Numeric.cluster exact l c) with (spec_cluster l c).
  destruct (Nat.eqb_spec (length (spec_cluster l c)) 1) as [E|E].
  - now apply cluster_single.
  - destruct (Nat.ltb_spec 1 (length (spec_cluster l c))); [reflexivity|].
    pose proof (cluster_nonempty l c H).
    destruct (spec_cluster l c); [contradiction|simpl in *; lia].
Qed.

(** On exact rationals the program over any arithmetic is the program of
    the model. *)
Lemma exact_dedupe (l : list Qc) : Numeric.dedupe exact l = dedupe l.
Proof.
  unfold Numeric.dedupe. rewrite exact_unique, any_pass, dedupe_spec.
  unfold spec_dedupe. f_equal.
  rewrite flat_map_concat_map.
  rewrite (map_ext_in _ (fun c => [spec_emit l c]) l (exact_emit l)).
  clear. induction l as [|c r IH] at 2 4; [reflexivity|].
  cbn [map concat app]. now rewrite IH.
Qed.

End ExactArithmetic.

(** ** Runs on binary64 floats *)

Section Binary64Runs.

Import PrimFloat.

(** Case analysis on membership in a computed list of floats. *)
Ltac float_cases H :=
  vm_compute in H; repeat (destruct H as [<-|H]); try contradiction.

(** Different float literals are different values. *)
Ltac float_apart H :=
  match type of H with
  | ?a = _ => apply (f_equal (eqb a)) in H; vm_compute in H; discriminate
  end.

Ltac float_ordered :=
  constructor;
  [ intros a b Ha Hb; float_cases Ha; float_cases Hb; vm_compute;
    ((left; reflexivity) || (right; reflexivity))
  | intros a b Ha Hb H1 H2; float_cases Ha; float_cases Hb;
    (reflexivity || (vm_compute in H1; vm_compute in H2; discriminate))
  | intros a b c Ha Hb Hc H1 H2;
    float_cases Ha; float_cases Hb; float_cases Hc;
    ((vm_compute; reflexivity)
     || (vm_compute in H1; vm_compute in H2; discriminate))
  | intros a b Ha Hb; float_cases Ha; float_cases Hb;
    (split; intros H;
     [ reflexivity || (vm_compute in H; discriminate)
     | (vm_compute; reflexivity) || float_apart H ]) ].

Lemma pairs_ordered :
  Numeric.ordered_on Binary64.arith
    (Numeric.degenerate_pass Binary64.arith Binary64.pairs).
Proof. float_ordered. Qed.

Lemma one_not_next_one : Binary64.one <> Binary64.next_one.
Proof. intro H. float_apart H. Qed.

(** C9, counterexample. On binary64 floats the three centres 1, 1+2^-52,
    1+2^-52 lie in one cluster; [np.mean] adds them in input order, and
    the rounded sum, hence the output, depends on that order. *)
Lemma dedupe_depends_on_order :
  Permutation Binary64.rounding Binary64.rounding'
  /\ Binary64.dedupe Binary64.rounding = [Binary64.one]
  /\ Binary64.dedupe Binary64.rounding' = [Binary64.next_one]
  /\ Binary64.dedupe Binary64.rounding
     <> Binary64.dedupe Binary64.rounding'.
Proof.
  assert (E : Binary64.dedupe Binary64.rounding = [Binary64.one])
    by (vm_compute; reflexivity).
  assert (E' : Binary64.dedupe Binary64.rounding' = [Binary64.next_one])
    by (vm_compute; reflexivity).
  split; [|split; [exact E|split; [exact E'|]]].
  - change Binary64.rounding' with (rev Binary64.rounding).
    apply Permutation_rev.
  - rewrite E, E'. intro H.
    apply (f_equal (fun l => nth 0 l Binary64.one)) in H.
    cbn [nth] in H. now apply one_not_next_one.
Qed.

Lemma dedupe_order_up_to_mean_witness :
  Binary64.dedupe Binary64.pairs = Binary64.dedupe Binary64.pairs'
  /\ Binary64.dedupe Binary64.pairs = Binary64.pairs_once.
Proof.
  split; [|vm_compute; reflexivity].
  apply (dedupe_order_up_to_mean Binary64.arith
           Binary64.pairs Binary64.pairs').
  - change Binary64.pairs' with (rev Binary64.pairs).
    apply Permutation_rev.
  - exact pairs_ordered.
  - intros c Hc. float_cases Hc; vm_compute; reflexivity.
Defined.

(** C3, on floats. The chain 0, 1/128, 2/128 runs on binary64 floats as
    it does on exact rationals: a second pass changes the output. *)
Lemma chain_not_idempotent_binary64 :
  Binary64.dedupe Binary64.chain = Binary64.chain_once
  /\ Binary64.dedupe Binary64.chain_once = Binary64.chain_twice.
Proof. split; vm_compute; reflexivity. Qed.

(** C3, on floats. Seven centres 1.8 and one centre 1.81 are not within
    0.01 of each other as floats, yet the rounded mean of the seven is
    within 0.01 of 1.81: the output of one pass holds two values that a
    second pass merges. *)
Lemma rounded_mean_breaks_separation :
  Numeric.near Binary64.arith Binary64.f1_8 Binary64.f1_81 = false
  /\ Numeric.near Binary64.arith Binary64.f1_81 Binary64.f1_8 = false
  /\ Binary64.dedupe Binary64.eight = Binary64.eight_once
  /\ Binary64.dedupe Binary64.eight_once = Binary64.eight_twice.
Proof. repeat split; vm_compute; reflexivity. Qed.


Lemma distinct_separated_pass_through_witness :
  Binary64.dedupe Binary64.apart
  = Numeric.unique Binary64.arith Binary64.apart
  /\ Binary64.dedupe Binary64.apart = [1%float; 2%float; 3%float].
Proof.
  split; [|vm_compute; reflexivity].
  apply (distinct_separated_pass_through Binary64.arith Binary64.apart).
  - unfold Binary64.apart.
    repeat (apply NoDup_cons;
            [intros H; vm_compute in H;
             repeat (destruct H as [H|H]; [float_apart H|]);
             contradiction|]).
    apply NoDup_nil.
  - intros c Hc. float_cases Hc; vm_compute; reflexivity.
  - intros u v Hu Hv N. float_cases Hu; float_cases Hv;
      solve [vm_compute; reflexivity | now contradiction N].
Defined.

End Binary64Runs.

(** ** The schedule of fitting calls (lines 93-102) *)

Section FitSchedule.

Variable find_peaks_cwt : list Qc -> list Z -> String.string + list Z.
Variable voigt_fit : list Qc -> list Qc -> Qc -> String.string + (Qc * Qc).

(** The calls made are an initial part of the calls the loops would make
    if none raised. *)
Lemma job_loop_prefix (x y : list Qc) (js : list (Z * Z)) (acc : list Qc) :
  exists rest,
    map (fun cj => fit_call x y (fst cj) (snd cj)) js
    = map Some (trace (for_each js (job_step voigt_fit x y) acc)) ++ rest.
Proof.
  revert acc. induction js as [|[c j] r IH]; intro acc.
  - exists []. reflexivity.
  - cbn [for_each map fst snd].
    change (job_step voigt_fit x y acc (c, j))
      with (fit_step voigt_fit x y c acc j).
    rewrite fit_step_eq. unfold fit_call at 1.
    destruct (NumPy.getitem x c) as [q|] eqn:G.
    2:{ eexists. cbn. reflexivity. }
    destruct (voigt_fit _ _ q) as [who|res] eqn:E.
    + eexists. cbn. reflexivity.
    + unfold bind. destruct (IH (acc ++ flat res)) as (rest & R).
      destruct (for_each r (job_step voigt_fit x y) (acc ++ flat res))
        as [o t].
      cbn [trace snd] in *. exists rest. cbn [app map]. now rewrite R.
Qed.

(** C7, amended. The calls of [fitting] that a run makes are always an
    initial part of the schedule "every candidate of the detector in
    order, the half-widths 3, 4, 5, 6, 7, 8, 9 in order", which has seven
    calls per candidate.  A run that returns made all of them, every
    call returned its own FitResult, and these results, flattened, are
    what [dedupe] receives.  A run that raises in the fitting loops made
    fewer or as many: its last call is the one that raised, all calls
    before it returned, and no later call of the schedule is made. *)
Theorem fits_follow_schedule (table : list (Qc * Qc)) (sens : Z)
    (lo_lim hi_lim : Qc) (fig : Z) (cands : list Z) :
  let x := map fst table in
  let y := map snd table in
  let run := finder find_peaks_cwt voigt_fit table sens lo_lim hi_lim fig in
  let calls := filter is_fit (trace run) in
  let schedule :=
    flat_map (fun c => map (fit_call x y c) [3; 4; 5; 6; 7; 8; 9]%Z) cands in
  outcome (detect find_peaks_cwt x y sens lo_lim hi_lim) = inr cands ->
  length schedule = (7 * length cands)%nat
  /\ (exists rest, schedule = map Some calls ++ rest)
  /\ (forall peaks, outcome run = inr peaks ->
        map Some calls = schedule
        /\ length calls = (7 * length cands)%nat
        /\ exists results,
             Forall2 (produces voigt_fit) calls results
             /\ peaks = dedupe (flat_map flat results))
  /\ (forall e, outcome run = inl e ->
        exists before x_range y_range q who,
          calls = before ++ [Fit x_range y_range q 0]
          /\ voigt_fit x_range y_range q = inl who
          /\ e = Raised who
          /\ Forall (fun ev => exists r, produces voigt_fit ev r) before).
Proof.
  intros x y run calls schedule Hd.
  destruct (finder_cases find_peaks_cwt voigt_fit table sens lo_lim hi_lim
              fig) as [(e' & D & _)|(cands' & D & R)];
    fold x y in D; [congruence|].
  assert (cands' = cands) by congruence. subst cands'.
  fold x y run in R.
  assert (S : schedule
              = map (fun cj => fit_call x y (fst cj) (snd cj)) (jobs cands))
    by (symmetry; apply jobs_calls).
  assert (C : calls = trace (fit_all voigt_fit x y cands)).
  { unfold calls. rewrite R, refine_peaks_unfold.
    pose proof (fit_events_only voigt_fit x y cands) as Fo.
    destruct (fit_all voigt_fit x y cands) as [[e'|fc] t];
      cbn [trace snd] in *; [exact Fo|].
    rewrite filter_app, Fo. destruct (fig =? 1)%Z; apply app_nil_r. }
  split; [|split; [|split]].
  - rewrite S, length_map. apply jobs_length.
  - rewrite S, C, fit_all_jobs. apply job_loop_prefix.
  - intros peaks Hr. rewrite R in Hr.
    destruct (refine_peaks_run _ _ _ _ _ _ _ _ Hr) as (fc & Hf & -> & _).
    rewrite C. rewrite fit_all_jobs in *.
    destruct (job_loop_ok _ _ _ _ _ _ Hf) as (results & E & T & P).
    split; [now rewrite T, S|]. split.
    + rewrite <- (length_map Some), T, length_map. apply jobs_length.
    + exists results. split; [exact P|]. now rewrite E.
  - intros e Hr. rewrite C. rewrite R, refine_peaks_unfold in Hr.
    pose proof (job_loop_fail voigt_fit x y (jobs cands) NumPy.zeros0 e
                  (jobs_valid find_peaks_cwt _ _ _ _ _ _ Hd)) as F.
    rewrite <- fit_all_jobs in F.
    destruct (fit_all voigt_fit x y cands) as [[e'|fc] t];
      cbn [outcome trace fst snd] in *; [|discriminate].
    apply F. exact Hr.
Qed.


End FitSchedule.

(** ** Runs that return with the fitting body of lines 35-72 *)

Section InteriorPeaks.

Variable find_peaks_cwt : list Qc -> list Z -> String.string + list Z.
Variable lin_guess : list Qc -> list Qc -> String.string + (Qc * Qc).
Variable least_squares :
  list Qc -> parameters -> list Qc -> String.string + (parameters * Qc).





End InteriorPeaks.

(** ** Runs of the schedule and of the fitting body *)

Section ScheduleRuns.

Import Sample.

(** C7, counterexample. With the fitting body of lines 35-72 the
    detector's candidates 5 and 10 on a curve of 20 samples get four
    calls of [fitting], not fourteen: the windows of half-widths 3, 4, 5
    around candidate 5 are fitted, the window of half-width 6 is
    [x[-1:11]], which is empty, so [np.max] raises and the run ends;
    candidate 10 is never fitted. *)
Lemma fits_cut_short_by_raising_window :
  let run := finder (cwt_const [5; 10]%Z) (lmfit_fit guess_flat solver_echo)
                    table 8 lo_lim hi_lim 0 in
  outcome (detect (cwt_const [5; 10]%Z) x y 8 lo_lim hi_lim)
    = inr [5; 10]%Z
  /\ outcome run = inl (Raised "ValueError"%string)
  /\ map Some (filter is_fit (trace run))
     = map (fit_call x y 5) [3; 4; 5; 6]%Z
  /\ length (filter is_fit (trace run)) = 4%nat
  /\ NumPy.slice x (5 - 6) (5 + 6) = []
  /\ length (filter is_fit (trace run)) <> (7 * length [5; 10]%Z)%nat.
Proof.
  repeat split; try (vm_compute; reflexivity).
  vm_compute. discriminate.
Qed.

Lemma fits_follow_schedule_witness :
  outcome (detect (cwt_const [10; 18]%Z) x y 8 lo_lim hi_lim)
    = inr [10; 18]%Z
  /\ outcome (run [10; 18]%Z 1)
     = inr [NumPy.lit 1 1; NumPy.lit 9 5; NumPy.lit 7 1]
  /\ length (filter is_fit (trace (run [10; 18]%Z 1))) = 14%nat.
Proof.
  assert (H1 : outcome (detect (cwt_const [10; 18]%Z) x y 8 lo_lim hi_lim)
               = inr [10; 18]%Z) by (vm_compute; reflexivity).
  assert (H2 : outcome (run [10; 18]%Z 1)
               = inr [NumPy.lit 1 1; NumPy.lit 9 5; NumPy.lit 7 1])
    by (apply values_of_inr; vm_compute; reflexivity).
  split; [exact H1|]. split; [exact H2|].
  exact (proj1 (proj2 (proj1 (proj2 (proj2
           (fits_follow_schedule
              (cwt_const [10; 18]%Z) (fit_echo redchi) table 8
              lo_lim hi_lim 1 [10; 18]%Z H1))) _ H2))).
Defined.


End ScheduleRuns.
